(** * Video generator server: subtitle builder, asset resolver and job pipeline

    A shallow embedding of [server.js] (and of the second server file of the
    repository, referred to below as the earlier variant) together with the
    properties of the specification that concern them.

    Conventions.
    - JavaScript strings are taken with code units below 256 ([string]).
    - Durations and cue offsets are whole seconds ([Z]); on integers below
      2^53 the double arithmetic of the source ([Math.floor (a / b)], [%],
      [Math.min], [Math.max], [*], [+]) is exact integer arithmetic.
    - Awaited external operations (HTTP requests, the transcoding engine,
      child processes, the response sink) take their outcome from an
      environment record; operations on the job's own workspace directory
      are total updates of a file-system state. *)

From Stdlib Require Import ZArith List Bool Ascii String Lia.
From Stdlib Require Import DecimalString DecimalZ DecimalN DecimalPos DecimalFacts.
Import ListNotations.

Open Scope string_scope.
Open Scope Z_scope.

(** ** JavaScript string primitives used by the source *)

Module JsString.

(** [s.split(sep)] for a one-character separator. *)
Fixpoint split (sep : ascii) (s : string) : list string :=
  match s with
  | EmptyString => [EmptyString]
  | String c r =>
      if Ascii.eqb c sep then EmptyString :: split sep r
      else match split sep r with
           | h :: t => String c h :: t
           | [] => [String c EmptyString]
           end
  end.

(** White space of [String.prototype.trim] among 8-bit code units:
    TAB, LF, VT, FF, CR, SPACE and NBSP. *)
Definition is_space (c : ascii) : bool :=
  let n := N_of_ascii c in
  (((9 <=? n) && (n <=? 13)) || (n =? 32) || (n =? 160))%N.

Fixpoint trimStart (s : string) : string :=
  match s with
  | EmptyString => EmptyString
  | String c r => if is_space c then trimStart r else s
  end.

Fixpoint trimEnd (s : string) : string :=
  match s with
  | EmptyString => EmptyString
  | String c r =>
      match trimEnd r with
      | EmptyString => if is_space c then EmptyString else String c EmptyString
      | r' => String c r'
      end
  end.

Definition trim (s : string) : string := trimEnd (trimStart s).

(** Truthiness of a string, as used by [filter(Boolean)]. *)
Definition truthy (s : string) : bool := negb (s =? "")%string.

Fixpoint repeat_char (c : ascii) (n : nat) : string :=
  match n with
  | O => EmptyString
  | S k => String c (repeat_char c k)
  end.

(** [s.padStart(n, c)] for a one-character filler. *)
Definition padStart (n : nat) (c : ascii) (s : string) : string :=
  repeat_char c (n - String.length s) ++ s.

(** [String(z)] on an integer. *)
Definition of_int (z : Z) : string := NilZero.string_of_int (Z.to_int z).

(** [s.replace(/c/g, r)]: every occurrence of the character [c] is replaced
    by the string [r]. *)
Fixpoint replace_all (c : ascii) (r : string) (s : string) : string :=
  match s with
  | EmptyString => EmptyString
  | String a t =>
      if Ascii.eqb a c then r ++ replace_all c r t
      else String a (replace_all c r t)
  end.

(** [s.includes(t)]. *)
Fixpoint includes (s t : string) : bool :=
  String.prefix t s ||
  match s with
  | EmptyString => false
  | String _ r => includes r t
  end.

Fixpoint concat (l : list string) : string :=
  match l with
  | [] => EmptyString
  | s :: r => s ++ concat r
  end.

Fixpoint occurrences (c : ascii) (s : string) : nat :=
  match s with
  | EmptyString => O
  | String a t => (if Ascii.eqb a c then 1 else 0) + occurrences c t
  end.

Fixpoint mem (c : ascii) (s : string) : bool :=
  match s with
  | EmptyString => false
  | String a t => Ascii.eqb a c || mem c t
  end.

Definition is_digit (c : ascii) : bool :=
  let n := N_of_ascii c in ((48 <=? n) && (n <=? 57))%N.

Fixpoint all_digits (s : string) : bool :=
  match s with
  | EmptyString => true
  | String c r => is_digit c && all_digits r
  end.

End JsString.

(** ** The subtitle builder: [fmt] / [buildSRT] *)

Module Subtitles.
Import JsString.

Definition LF : ascii := "010"%char.
Definition nl : string := String LF EmptyString.

(** [fmt(sec)] (named [formatTime] in the earlier variant). *)
Definition fmt (sec : Z) : string :=
  let h := padStart 2 "0" (of_int (sec / 3600)) in
  let m := padStart 2 "0" (of_int (Z.rem sec 3600 / 60)) in
  let s := padStart 2 "0" (of_int (Z.rem sec 60)) in
  h ++ ":" ++ m ++ ":" ++ s ++ ",000".

(** A field [String(z).padStart(2, '0')] of a time stamp. *)
Definition field (z : Z) : string := padStart 2 "0" (of_int z).

(** [script.split('\n').map(l => l.trim()).filter(Boolean)] *)
Definition script_lines (script : string) : list string :=
  filter truthy (map trim (split LF script)).

(** [Math.max(2, Math.floor(dur / lines.length))].  With no line the source
    divides by zero; the value is then never used, since the loop body does
    not run. *)
Definition per_line (dur : Z) (n : nat) : Z := Z.max 2 (dur / Z.of_nat n).

(** [array.forEach((x, i) => ...)] threading the mutated variable. *)
Fixpoint forEach {A S : Type} (f : S -> A -> Z -> S) (l : list A) (i : Z) (acc : S) : S :=
  match l with
  | [] => acc
  | x :: r => forEach f r (i + 1) (f acc x i)
  end.

(** [buildSRT(script, dur)] (named [generateSRT] in the earlier variant). *)
Definition buildSRT (script : string) (dur : Z) : string :=
  let lines := script_lines script in
  let per := per_line dur (List.length lines) in
  forEach
    (fun srt l i =>
       let s := i * per in
       let e := Z.min (s + per) dur in
       srt ++ (of_int (i + 1) ++ nl ++ fmt s ++ " --> " ++ fmt e ++ nl ++ l ++ nl ++ nl))
    lines 0 "".

(** The cues of the subtitle track: the values [i + 1], [s], [e], [l] that
    the loop body of [buildSRT] computes at each iteration. *)
Record cue : Type := Cue {
  cue_index : Z;
  cue_start : Z;
  cue_end : Z;
  cue_text : string
}.

Fixpoint cues_from (i : Z) (per dur : Z) (lines : list string) : list cue :=
  match lines with
  | [] => []
  | l :: r =>
      let s := i * per in
      let e := Z.min (s + per) dur in
      Cue (i + 1) s e l :: cues_from (i + 1) per dur r
  end.

Definition cues (script : string) (dur : Z) : list cue :=
  let lines := script_lines script in
  cues_from 0 (per_line dur (List.length lines)) dur lines.

(** The text that one loop iteration appends. *)
Definition render (c : cue) : string :=
  of_int (cue_index c) ++ nl ++ fmt (cue_start c) ++ " --> " ++ fmt (cue_end c)
    ++ nl ++ cue_text c ++ nl ++ nl.

(** How a call of the builder ends.  The source has no [throw] and no error
    value on this path: on a string and a number it always returns. *)
Inductive srt_error : Type := EmptyScript.

Inductive outcome : Type :=
| Returned (srt : string)
| Raised (e : srt_error).

Definition run_buildSRT (script : string) (dur : Z) : outcome :=
  Returned (buildSRT script dur).

(** *** The invariant of the data model *)

Fixpoint contiguous (l : list cue) : Prop :=
  match l with
  | c1 :: ((c2 :: _) as r) => cue_start c2 = cue_end c1 /\ contiguous r
  | _ => True
  end.

Definition in_bounds (dur : Z) (c : cue) : Prop :=
  0 <= cue_start c /\ cue_start c < cue_end c /\ cue_end c <= dur.

Definition well_formed (dur : Z) (l : list cue) : Prop :=
  contiguous l /\ Forall (in_bounds dur) l.

(** A cue whose rendering can be read back: no negative number and no
    line break in the text. *)
Definition readable (c : cue) : Prop :=
  0 <= cue_index c /\ 0 <= cue_start c /\ 0 <= cue_end c /\
  mem LF (cue_text c) = false.

(** *** Reading the timed-text format back *)

(** Modelled from the spec: the repository only writes subtitle text and has
    no reader for it.  The reader below follows the format of the
    specification: blocks of a sequential number, a line
    [HH:MM:SS,mmm --> HH:MM:SS,mmm], a text line and an empty line.  Offsets
    are read in milliseconds. *)
Record timed_cue : Type := TimedCue {
  tc_index : Z;
  tc_start_ms : Z;
  tc_end_ms : Z;
  tc_text : string
}.

Definition in_ms (c : cue) : timed_cue :=
  TimedCue (cue_index c) (1000 * cue_start c) (1000 * cue_end c) (cue_text c).

(** A decimal numeral, of any width. *)
Definition parse_num (s : string) : option Z :=
  option_map Z.of_uint (NilZero.uint_of_string s).

(** The offset, in milliseconds, that a stamp [h:m:s,ms] denotes when its
    fields are numerals of any width; it serves to tell stamps apart. *)
Definition stamp_value (s : string) : option Z :=
  match split ":" s with
  | [h; m; r] =>
      match split "," r with
      | [sec; ms] =>
          match parse_num h, parse_num m, parse_num sec, parse_num ms with
          | Some h', Some m', Some s', Some ms' =>
              Some ((h' * 3600 + m' * 60 + s') * 1000 + ms')
          | _, _, _, _ => None
          end
      | _ => None
      end
  | _ => None
  end.

(** Modelled from the spec: a field of exactly [w] decimal digits. *)
Definition parse_field (w : nat) (s : string) : option Z :=
  if Nat.eqb (String.length s) w then parse_num s else None.

(** Modelled from the spec: a time stamp [HH:MM:SS,mmm], two digits for the
    hours, the minutes and the seconds and three for the milliseconds. *)
Definition parse_time (s : string) : option Z :=
  match split ":" s with
  | [h; m; r] =>
      match split "," r with
      | [sec; ms] =>
          match parse_field 2 h, parse_field 2 m, parse_field 2 sec, parse_field 3 ms with
          | Some h', Some m', Some s', Some ms' =>
              Some ((h' * 3600 + m' * 60 + s') * 1000 + ms')
          | _, _, _, _ => None
          end
      | _ => None
      end
  | _ => None
  end.

(** Modelled from the spec: the line [HH:MM:SS,mmm --> HH:MM:SS,mmm]. *)
Definition parse_range (line : string) : option (Z * Z) :=
  match split " " line with
  | [a; arrow; b] =>
      if (arrow =? "-->")%string then
        match parse_time a, parse_time b with
        | Some x, Some y => Some (x, y)
        | _, _ => None
        end
      else None
  | _ => None
  end.

(** Modelled from the spec: the blocks, numbered in sequence from [k]; the
    number line is the decimal numeral of the block's number. *)
Fixpoint parse_blocks (k : Z) (ls : list string) : option (list timed_cue) :=
  match ls with
  | [] => None
  | [last] => if (last =? "")%string then Some [] else None
  | i :: t :: x :: b :: rest =>
      if (i =? of_int k)%string && (b =? "")%string then
        match parse_range t, parse_blocks (k + 1) rest with
        | Some (s, e), Some cs => Some (TimedCue k s e x :: cs)
        | _, _ => None
        end
      else None
  | _ => None
  end.

(** Modelled from the spec: the reader of a whole subtitle text (see
    [timed_cue]); the blocks are numbered from 1. *)
Definition parseSRT (srt : string) : option (list timed_cue) :=
  parse_blocks 1 (split LF srt).

(** A cue whose offsets are below 100 hours, so that the hours of its stamps
    take two digits. *)
Definition below_100h (c : cue) : Prop :=
  cue_start c < 360000 /\ cue_end c < 360000.

End Subtitles.


(** ** JavaScript values, exceptions and the expressions the source uses *)

Module Js.
Import JsString.

(** Values that reach the program as data: the fields of a parsed JSON body
    and the responses of the services it calls; and the built-in methods
    that reading a property of such a value can give. *)
#[warnings="-register-all"]
Inductive value : Type :=
| VUndefined
| VNull
| VBool (b : bool)
| VNum (n : Z)
| VStr (s : string)
| VArr (items : list value)
| VObj (fields : list (string * value))
| VBuiltin (name : string).

Inductive error : Type :=
| ReferenceError (msg : string)
| TypeError (msg : string)
| RangeError (msg : string)
| Failure (msg : string).

(** [e.message] *)
Definition message (e : error) : string :=
  match e with
  | ReferenceError m | TypeError m | RangeError m | Failure m => m
  end.

Inductive result (A : Type) : Type :=
| Ok (a : A)
| Throw (e : error).
Arguments Ok {A} a.
Arguments Throw {A} e.

Definition bind {A B : Type} (r : result A) (k : A -> result B) : result B :=
  match r with
  | Ok a => k a
  | Throw e => Throw e
  end.

(** [try { body } catch { handler }] *)
Definition try_catch {A : Type} (body : result A) (handler : error -> result A) : result A :=
  match body with
  | Ok a => Ok a
  | Throw e => handler e
  end.

Definition truthy (v : value) : bool :=
  match v with
  | VUndefined | VNull => false
  | VBool b => b
  | VNum n => negb (n =? 0)
  | VStr s => JsString.truthy s
  | VArr _ | VObj _ | VBuiltin _ => true
  end.

Definition nullish (v : value) : bool :=
  match v with
  | VUndefined | VNull => true
  | _ => false
  end.

(** [a || b] *)
Definition or_else (a b : value) : value := if truthy a then a else b.

Fixpoint lookup {A : Type} (k : string) (l : list (string * A)) : option A :=
  match l with
  | [] => None
  | (k', v) :: r => if (k =? k')%string then Some v else lookup k r
  end.

(** [v.name] for the names the source reads: [data], [videos],
    [video_files], [link], [choices], [message] and [content].  Of these
    only [link] is a built-in property, the method [String.prototype.link]
    of a string. *)
Definition get (v : value) (name : string) : result value :=
  match v with
  | VUndefined | VNull =>
      Throw (TypeError ("Cannot read properties of undefined (reading '" ++ name ++ "')"))
  | VObj fields =>
      match lookup name fields with
      | Some x => Ok x
      | None => Ok VUndefined
      end
  | VStr _ =>
      if (name =? "link")%string then Ok (VBuiltin "link") else Ok VUndefined
  | _ => Ok VUndefined
  end.

(** [v[0]] *)
Definition get0 (v : value) : result value :=
  match v with
  | VUndefined | VNull =>
      Throw (TypeError "Cannot read properties of undefined (reading '0')")
  | VArr items => Ok (hd VUndefined items)
  | VStr (String c _) => Ok (VStr (String c EmptyString))
  | VObj fields =>
      match lookup "0" fields with
      | Some x => Ok x
      | None => Ok VUndefined
      end
  | _ => Ok VUndefined
  end.

Definition is_str (t : string) (v : value) : bool :=
  match v with
  | VStr s => (s =? t)%string
  | _ => false
  end.

(** [v.includes(t)]: a method of strings and arrays only. *)
Definition call_includes (v : value) (t : string) : result bool :=
  match v with
  | VStr s => Ok (includes s t)
  | VArr items => Ok (existsb (is_str t) items)
  | VUndefined | VNull =>
      Throw (TypeError "Cannot read properties of undefined (reading 'includes')")
  | _ => Throw (TypeError "includes is not a function")
  end.

(** [v.replace(/c/g, r)]: a method of strings only. *)
Definition call_replace (v : value) (c : ascii) (r : string) : result string :=
  match v with
  | VStr s => Ok (replace_all c r s)
  | VUndefined | VNull =>
      Throw (TypeError "Cannot read properties of undefined (reading 'replace')")
  | _ => Throw (TypeError "replace is not a function")
  end.

(** Identifier resolution: the innermost binding or a [ReferenceError]. *)
Definition scope : Type := list (string * value).

Definition resolve (sc : scope) (x : string) : result value :=
  match lookup x sc with
  | Some v => Ok v
  | None => Throw (ReferenceError (x ++ " is not defined"))
  end.

End Js.

(** ** The job pipeline: [POST /api/generate-video] *)

Module Pipeline.
Import JsString Js.

(** The two server files of the repository. *)
Inductive variant : Type := ServerJs | EarlierVariant.

Definition FALLBACK : string :=
  "https://commondatastorage.googleapis.com/gtv-videos-bucket/sample/BigBuckBunny.mp4".

(** *** The transcoding engine *)

(** One fluent-ffmpeg command: [ffmpeg(input).input(..).setDuration(..)
    .videoFilters(..).outputOptions(..).save(output)]. *)
Record command : Type := Command {
  cmd_input : string;
  cmd_more_inputs : list string;
  cmd_duration : option Z;
  cmd_filters : list string;
  cmd_options : list string;
  cmd_output : string
}.

Inductive content : Type :=
| Text (s : string)
| Bytes (b : list Byte.byte)
| Media.

Inductive sink_outcome : Type := Completed | Aborted.

(** *** The environment of one job *)

Record env : Type := Env {
  platform : string;                                (* process.platform *)
  dirname : string;                                 (* __dirname *)
  uuid : string;                                    (* uuidv4() *)
  buffer_max : Z;                                   (* buffer.constants.MAX_LENGTH *)
  search : list (string * value) -> result value;   (* axios.get on the footage search *)
  download : value -> result content;               (* axios({url, responseType}) piped to a file *)
  engine : command -> result unit;                  (* one run of the engine, 'end' or 'error' *)
  exec : string -> result unit;                     (* child_process.exec *)
  sink : sink_outcome                               (* the response sink *)
}.

(** *** The world a job acts on *)

Inductive body : Type :=
| Json (fields : list (string * value))
| FileStream (path : string).

Record response : Type := Response {
  status : Z;
  content_type : option string;
  sent : option body;
  headersSent : bool
}.

Record world : Type := World {
  dirs : list string;                   (* directories on disk *)
  files : list (string * content);      (* files on disk, latest write first *)
  timers : list string;                 (* pending [setTimeout(() => fs.remove(d), 5000)] *)
  runs : list command;                  (* engine runs, latest first *)
  logged : list string;                 (* lines passed to [log], latest first *)
  res : response
}.

Definition fresh_response : response := Response 200 None None false.

(** [path.join(a, b)] on a normalised POSIX path and a file name. *)
Definition join (a b : string) : string := a ++ "/" ++ b.

Definition under (dir : string) (f : string * content) : bool :=
  String.prefix (dir ++ "/") (fst f).

(** [fs.ensureDir(dir)] *)
Definition ensureDir (dir : string) (w : world) : world :=
  World (if existsb (String.eqb dir) (dirs w) then dirs w else dir :: dirs w)
        (files w) (timers w) (runs w) (logged w) (res w).

(** The directory [dir] itself or one beneath it. *)
Definition beneath (dir d : string) : bool :=
  String.eqb dir d || String.prefix (dir ++ "/") d.

(** [fs.remove(dir)]: removes the directory with the files and directories
    it holds; no error when the directory is missing. *)
Definition remove (dir : string) (w : world) : world :=
  World (filter (fun d => negb (beneath dir d)) (dirs w))
        (filter (fun f => negb (under dir f)) (files w))
        (timers w) (runs w) (logged w) (res w).

Definition put_file (path : string) (c : content) (w : world) : world :=
  World (dirs w) ((path, c) :: files w) (timers w) (runs w) (logged w) (res w).

Definition set_res (r : response) (w : world) : world :=
  World (dirs w) (files w) (timers w) (runs w) (logged w) r.

Definition add_timer (dir : string) (w : world) : world :=
  World (dirs w) (files w) (dir :: timers w) (runs w) (logged w) (res w).

Definition add_run (c : command) (w : world) : world :=
  World (dirs w) (files w) (timers w) (c :: runs w) (logged w) (res w).

Definition add_log (m : string) (w : world) : world :=
  World (dirs w) (files w) (timers w) (runs w) (m :: logged w) (res w).

(** The pending timers fire: each removes its directory. *)
Definition fire_timers (w : world) : world :=
  let w' := fold_right remove w (timers w) in
  World (dirs w') (files w') [] (runs w') (logged w') (res w').

(** *** Computations of the handler: state and exceptions *)

Definition M (A : Type) : Type := world -> result A * world.

Definition ret {A : Type} (a : A) : M A := fun w => (Ok a, w).

Definition throw {A : Type} (e : error) : M A := fun w => (Throw e, w).

Definition mbind {A B : Type} (m : M A) (k : A -> M B) : M B :=
  fun w =>
    match m w with
    | (Ok a, w') => k a w'
    | (Throw e, w') => (Throw e, w')
    end.

Definition lift {A : Type} (r : result A) : M A := fun w => (r, w).

Definition act (f : world -> world) : M unit := fun w => (Ok tt, f w).

Definition read {A : Type} (f : world -> A) : M A := fun w => (Ok (f w), w).

(** [try { body } catch (e) { handler }] *)
Definition mtry {A : Type} (m : M A) (handler : error -> M A) : M A :=
  fun w =>
    match m w with
    | (Ok a, w') => (Ok a, w')
    | (Throw e, w') => handler e w'
    end.

Notation "x <- m ;; k" := (mbind m (fun x => k))
  (at level 61, m at next level, right associativity).
Notation "m ;;; k" := (mbind m (fun _ => k))
  (at level 61, right associativity).

(** *** Stage helpers *)

(** The data argument of [fs.writeFile]: a string (or a buffer, built by the
    program itself); any other value is rejected with a [TypeError]. *)
(** The message of that error, up to the value it names. *)
Definition data_type_message : string :=
  "The data argument must be of type string or an instance of Buffer, TypedArray, or DataView.".

Definition file_data (v : value) : result content :=
  match v with
  | VStr s => Ok (Text s)
  | _ => Throw (TypeError data_type_message)
  end.

(** [await fs.writeFile(path, v)] *)
Definition writeFile (path : string) (v : value) : M unit :=
  c <- lift (file_data v) ;; act (put_file path c).

(** [Buffer.alloc(size, 0)] *)
Definition Buffer_alloc (E : env) (size : Z) : result (list Byte.byte) :=
  if (0 <=? size) && (size <=? buffer_max E)
  then Ok (repeat Byte.x00 (Z.to_nat size))
  else Throw (RangeError "The value of size is out of range.").

(** One awaited run of the engine: on 'end' the output file exists. *)
Definition run_engine (E : env) (c : command) : M unit :=
  act (add_run c) ;;;
  lift (engine E c) ;;;
  act (put_file (cmd_output c) Media).

(** *** Resolving the background footage *)

(** [r.data.videos[0]?.video_files[0]?.link] *)
Definition first_link (r : value) : result value :=
  bind (get r "data") (fun data =>
  bind (get data "videos") (fun videos =>
  bind (get0 videos) (fun video =>
  if nullish video then Ok VUndefined else
  bind (get video "video_files") (fun video_files =>
  bind (get0 video_files) (fun file =>
  if nullish file then Ok VUndefined else
  get file "link"))))).

Definition search_url : string := "https://api.pexels.com/videos/search".

(** [getBg(style)] of [server.js]. *)
Definition getBg (E : env) (style : value) : result value :=
  try_catch
    (bind (call_includes style "Professional") (fun professional =>
     let q := if professional then "tech" else "nature" in
     bind (search E [("query", VStr q); ("per_page", VNum 1)]) (fun r =>
     bind (first_link r) (fun link =>
     Ok (or_else link (VStr FALLBACK))))))
    (fun _ => Ok (VStr FALLBACK)).

(** [fetchPexelsVideo(query)] of the earlier variant. *)
Definition fetchPexelsVideo (E : env) (query : value) : result value :=
  try_catch
    (bind (search E [("query", query); ("per_page", VNum 1);
                     ("orientation", VStr "landscape")]) (fun r =>
     bind (first_link r) (fun link =>
     Ok (or_else link VNull))))
    (fun _ => Ok (VStr FALLBACK)).

Definition resolve_background (v : variant) (E : env) (style : value) : result value :=
  match v with
  | ServerJs => getBg E style
  | EarlierVariant => fetchPexelsVideo E style
  end.

(** *** Narration *)

Definition dq : string := String "034"%char EmptyString.

Definition placeholder_text : string := "TTS not supported on this OS".

(** The command line that [generateTTS(text, voice, outputPath)] of the
    earlier variant hands to [child_process.exec]. *)
Definition tts_command (E : env) (text voice : value) (outputPath : string) : result string :=
  if (platform E =? "darwin")%string then
    bind (call_includes voice "Female") (fun female =>
    bind (call_replace text "034"%char ("\" ++ dq)) (fun quoted =>
    Ok ("say -v " ++ (if female then "Samantha" else "Alex") ++ " " ++ dq ++ quoted
          ++ dq ++ " -o " ++ dq ++ outputPath ++ dq)))
  else
    Ok ("echo " ++ dq ++ placeholder_text ++ dq ++ " > " ++ dq ++ outputPath ++ dq).

(** What the shell leaves in the output file: the speech utility writes an
    audio file, [echo] writes its argument and a line break. *)
Definition tts_output (E : env) : content :=
  if (platform E =? "darwin")%string then Media
  else Text (placeholder_text ++ String "010"%char EmptyString).

(** [generateTTS(text, voice, outputPath)] of the earlier variant.  Of the
    child process only the outcome and the output file are kept: what else
    a shell does with the command line, which quotes the script but for its
    double quotes unescaped, is outside this model. *)
Definition generateTTS (E : env) (text voice : value) (outputPath : string) : M unit :=
  cmd <- lift (tts_command E text voice outputPath) ;;
  lift (exec E cmd) ;;;
  act (put_file outputPath (tts_output E)).

(** [const silence = Buffer.alloc(Math.ceil(duration * 16000 * 2), 0);
     await fs.writeFile(p.tts, silence)] of [server.js]; [Math.ceil] is the
    identity on a whole number.  The step reads neither the script nor the
    voice hint. *)
Definition write_silence (E : env) (duration : Z) (path : string) : M unit :=
  silence <- lift (Buffer_alloc E (duration * 16000 * 2)) ;;
  act (put_file path (Bytes silence)).

(** *** The files of a job and the engine commands *)

Record paths : Type := Paths {
  p_bg : string;
  p_tts : string;
  p_srt : string;
  p_vid : string;
  p_final : string
}.

(** The object [p] of [server.js] ([files] in the earlier variant, whose
    narration and intermediate files are named [audio] and [temp]). *)
Definition job_paths (v : variant) (dir : string) : paths :=
  match v with
  | ServerJs =>
      Paths (join dir "bg.mp4") (join dir "tts.wav") (join dir "subs.srt")
            (join dir "video.mp4") (join dir "final.mp4")
  | EarlierVariant =>
      Paths (join dir "bg.mp4") (join dir "voice.aiff") (join dir "subs.srt")
            (join dir "temp.mp4") (join dir "final.mp4")
  end.

Definition trim_command (p : paths) (duration : Z) : command :=
  Command (p_bg p) [] (Some duration) [] ["-c copy"] (p_vid p).

Definition mux_command (p : paths) : command :=
  Command (p_vid p) [p_tts p] None [] ["-c:v copy"; "-c:a aac"; "-shortest"] (p_vid p).

Definition force_style (v : variant) : string :=
  match v with
  | ServerJs => "Fontsize=28,PrimaryColour=&Hffffff&,Bold=1"
  | EarlierVariant =>
      "Fontsize=24,PrimaryColour=&Hffffff&,OutlineColour=&H0&,BackColour=&H80000000&,Bold=1"
  end.

(** [srt.replace(/:/g, '\\:')] *)
Definition escape_colons (path : string) : string := replace_all ":" "\:" path.

(** The argument of [videoFilters] in the burn-subtitles stage. *)
Definition subtitles_filter (v : variant) (srt_path : string) : string :=
  "subtitles=" ++ escape_colons srt_path ++ ":force_style='" ++ force_style v ++ "'".

Definition burn_command (v : variant) (p : paths) : command :=
  Command (p_vid p) [] None [subtitles_filter v (p_srt p)]
          ["-c:v libx264"; "-pix_fmt yuv420p"] (p_final p).

(** *** The request and the scopes *)

(** The fields the handler destructures from [req.body]; an absent field is
    [VUndefined], and [duration], when present, is a number of seconds. *)
Record request : Type := Request {
  script : value;
  srt : value;
  music : value;
  voice : value;
  duration : option Z
}.

(** [const { ..., duration = 60 } = req.body] *)
Definition duration_of (r : request) : Z :=
  match duration r with
  | Some d => d
  | None => 60
  end.

Definition opaque : value := VObj [].

Definition names (l : list string) : scope := map (fun x => (x, opaque)) l.

(** The bindings of the handler's own scope. *)
Definition handler_scope (v : variant) (r : request) (job dir : string) : scope :=
  ([("script", script r); ("srt", srt r);
   ("music", match v, music r with
             | ServerJs, VUndefined => VStr "none"
             | _, m => m
             end);
   ("voice", voice r); ("duration", VNum (duration_of r));
   (match v with ServerJs => "job" | EarlierVariant => "jobId" end, VStr job);
   ("dir", VStr dir)]
  ++ names [match v with ServerJs => "p" | EarlierVariant => "files" end; "req"; "res"])%list.

(** The bindings declared at the top level of each server file. *)
Definition module_scope (v : variant) : scope :=
  names
    (["express"; "OpenAI"; "ffmpeg"; "ffmpegStatic"; "axios"; "fs"; "path";
      "uuidv4"; "app"; "openai"; "log"]
     ++ match v with
        | ServerJs => ["XAI_KEY"; "TEMP"; "fmt"; "buildSRT"; "getBg"]
        | EarlierVariant =>
            ["XAI_API_KEY"; "TEMP_DIR"; "formatTime"; "generateSRT";
             "fetchPexelsVideo"; "generateTTS"; "PORT"]
        end)%list.

(** The names the Node.js runtime binds in every module and on the global
    object. *)
Definition node_scope : scope :=
  names
    ["require"; "module"; "exports"; "__dirname"; "__filename";
     "globalThis"; "global"; "process"; "console"; "Buffer";
     "setTimeout"; "clearTimeout"; "setInterval"; "clearInterval";
     "setImmediate"; "clearImmediate"; "queueMicrotask"; "structuredClone";
     "Object"; "Function"; "Array"; "String"; "Number"; "Boolean"; "Symbol";
     "BigInt"; "Math"; "Date"; "JSON"; "Promise"; "RegExp"; "Error";
     "TypeError"; "RangeError"; "ReferenceError"; "SyntaxError"; "Map"; "Set";
     "WeakMap"; "WeakSet"; "Proxy"; "Reflect"; "Intl"; "URL";
     "URLSearchParams"; "TextEncoder"; "TextDecoder"; "AbortController";
     "parseInt"; "parseFloat"; "isNaN"; "isFinite"; "undefined"; "NaN";
     "Infinity"; "encodeURIComponent"; "decodeURIComponent"; "encodeURI";
     "decodeURI"; "escape"; "unescape"; "eval"; "fetch"; "performance"].

(** *** The handler *)

Definition json_error (e : error) : body := Json [("error", VStr (message e))].

(** The [try] block, from the subtitle write to the response stream. *)
Definition job_body (v : variant) (E : env) (outer : scope) (r : request)
    (job dir : string) : M unit :=
  let p := job_paths v dir in
  let sc := (handler_scope v r job dir ++ outer)%list in
  (match v with
   | ServerJs => ret tt
   | EarlierVariant => act (add_log ("Starting video job " ++ job))
   end) ;;;
  writeFile (p_srt p) (srt r) ;;;
  style <- lift (resolve sc "style") ;;
  bgUrl <- lift (resolve_background v E style) ;;
  bg <- lift (download E bgUrl) ;;
  act (put_file (p_bg p) bg) ;;;
  run_engine E (trim_command p (duration_of r)) ;;;
  (match v with
   | ServerJs => write_silence E (duration_of r) (p_tts p)
   | EarlierVariant => generateTTS E (script r) (voice r) (p_tts p)
   end) ;;;
  run_engine E (mux_command p) ;;;
  run_engine E (burn_command v p) ;;;
  act (fun w => set_res (Response (status (res w)) (Some "video/mp4")
                                  (sent (res w)) (headersSent (res w))) w) ;;;
  act (fun w => set_res (Response (status (res w)) (content_type (res w))
                                  (Some (FileStream (p_final p))) true) w) ;;;
  match sink E with
  | Completed =>
      act (add_timer dir) ;;;
      (match v with
       | ServerJs => ret tt
       | EarlierVariant => act (add_log ("Video sent: " ++ job))
       end)
  | Aborted => ret tt
  end.

(** The [catch] block. *)
Definition job_catch (v : variant) (dir : string) (e : error) : M unit :=
  act (add_log ((match v with
                 | ServerJs => "Video error: "
                 | EarlierVariant => "Video failed: "
                 end) ++ message e)) ;;;
  act (remove dir) ;;;
  sent_already <- read (fun w => headersSent (res w)) ;;
  if sent_already then ret tt
  else act (set_res (Response 500 (Some "application/json") (Some (json_error e)) true)).

(** The handler of [POST /api/generate-video], in a scope [outer] enclosing
    its own. *)
Definition generate_video_in (outer : scope) (v : variant) (E : env) (r : request) : M unit :=
  let job := uuid E in
  let dir := join (join (dirname E) "temp") job in
  act (ensureDir dir) ;;;
  mtry (job_body v E outer r job dir) (job_catch v dir).

(** The handler as the server files define it. *)
Definition generate_video (v : variant) (E : env) (r : request) : M unit :=
  generate_video_in (module_scope v ++ node_scope)%list v E r.

Definition workspace (E : env) : string := join (join (dirname E) "temp") (uuid E).

(** A job is still in flight, once its handler has returned, while its
    delayed removal is pending. *)
Definition in_flight (dir : string) (w : world) : Prop := In dir (timers w).

Definition is_string (v : value) : bool :=
  match v with
  | VStr _ => true
  | _ => false
  end.

(** The text one character of a path contributes to the escaped path. *)
Definition escape_char (c : ascii) : string :=
  if Ascii.eqb c ":" then "\:" else String c EmptyString.

(** Reading an escaped path: a backslash followed by a colon stands for the
    colon. *)
Fixpoint unescape_colons (s : string) : string :=
  match s with
  | EmptyString => EmptyString
  | String c r =>
      match r with
      | String c' r' =>
          if Ascii.eqb c "\" && Ascii.eqb c' ":" then String ":" (unescape_colons r')
          else String c (unescape_colons r)
      | EmptyString => String c EmptyString
      end
  end.

(** The commands a job has the engine run, latest first. *)
Definition job_commands (v : variant) (dir : string) (duration : Z) : list command :=
  let p := job_paths v dir in
  [burn_command v p; mux_command p; trim_command p duration].

End Pipeline.

(** ** Sample inputs *)

Module Samples.
Import JsString Js Pipeline Subtitles.

Definition hello_script : string := "Hello world." ++ nl ++ "This is a test.".

Definition crowded_script : string := "a" ++ nl ++ "b" ++ nl ++ "c".

(** A footage search that finds nothing: [{ videos: [] }]. *)
Definition no_footage : value := VObj [("data", VObj [("videos", VArr [])])].

Definition linux_env : env :=
  Env "linux" "/srv/app" "job-1" 4294967296
      (fun _ => Ok no_footage) (fun _ => Ok Media) (fun _ => Ok tt) (fun _ => Ok tt)
      Completed.

Definition empty_world : world := World [] [] [] [] [] fresh_response.

(** The body [{}]. *)
Definition empty_request : request :=
  Request VUndefined VUndefined VUndefined VUndefined None.

Definition short_request : request :=
  Request (VStr "Hello") (VStr "1") VUndefined (VStr "Female") (Some 1).

(** An enclosing scope that does bind [style]. *)
Definition styled_scope : scope := [("style", VStr "Professional")].

End Samples.


(** ** The script route: [POST /api/generate-script] *)

Module ScriptRoute.
Import JsString Js Subtitles Pipeline.


(** The text that the string conversion of a convertible value gives.  An
    array is joined with commas, its [null] and [undefined] items left
    empty. *)
Fixpoint to_string (v : value) : string :=
  match v with
  | VUndefined => "undefined"
  | VNull => "null"
  | VBool true => "true"
  | VBool false => "false"
  | VNum n => of_int n
  | VStr s => s
  | VArr items =>
      (fix join_items (l : list value) : string :=
         match l with
         | [] => EmptyString
         | x :: r =>
             (match x with
              | VUndefined | VNull => EmptyString
              | _ => to_string x
              end)
             ++ match r with
                | [] => EmptyString
                | _ :: _ => "," ++ join_items r
                end
         end) items
  | VObj _ => "[object Object]"
  | VBuiltin name => "function " ++ name ++ "() { [native code] }"
  end.


(** The argument of [openai.chat.completions.create]; the temperature 0.7
    is kept as the fraction 7 / 10. *)
Record chat_request : Type := ChatRequest {
  model : string;
  messages : list (string * string);      (* role, content *)
  temperature : Z * Z;
  max_tokens : Z
}.

(** The fields the handler destructures from [req.body]. *)
Record script_request : Type := ScriptRequest {
  topic : value;
  s_duration : option Z;
  s_style : value;
  s_voice : value;
  unlimited : value
}.

(** [const { ..., duration = 60, ... } = req.body] *)
Definition s_duration_of (r : script_request) : Z :=
  match s_duration r with
  | Some d => d
  | None => 60
  end.

(** [unlimited ? 'grok-4' : 'grok-3-mini'] *)
Definition model_of (r : script_request) : string :=
  if truthy (unlimited r) then "grok-4" else "grok-3-mini".

(** The text of the prompt, when its template literal can be evaluated. *)
Definition prompt_of (v : variant) (r : script_request) : string :=
  match v with
  | ServerJs =>
      "Write a " ++ of_int (s_duration_of r) ++ "s video script about " ++ dq
        ++ to_string (topic r) ++ dq ++ ". Style: " ++ to_string (s_style r)
        ++ ". Voice: " ++ to_string (s_voice r) ++ ". One short line per subtitle."
  | EarlierVariant =>
      "Write a " ++ of_int (s_duration_of r) ++ "-second video script about " ++ dq
        ++ to_string (topic r) ++ dq ++ ". " ++ nl
        ++ "Style: " ++ to_string (s_style r) ++ ". Voice: " ++ to_string (s_voice r)
        ++ ". " ++ nl
        ++ "Keep each line short for subtitles. " ++ nl
        ++ "Return only the script, one sentence per line."
  end.


Definition chat_request_of (v : variant) (r : script_request) : chat_request :=
  ChatRequest (model_of r) [("user", prompt_of v r)] (7, 10)
              (match v with ServerJs => 600 | EarlierVariant => 500 end).

(** [v.trim()]: a method of strings only. *)
Definition call_trim (v : value) : result string :=
  match v with
  | VStr s => Ok (trim s)
  | VUndefined | VNull =>
      Throw (TypeError "Cannot read properties of undefined (reading 'trim')")
  | _ => Throw (TypeError "trim is not a function")
  end.

(** [c.choices[0].message.content.trim()] *)
Definition completion_text (c : value) : result string :=
  bind (get c "choices") (fun choices =>
  bind (get0 choices) (fun choice =>
  bind (get choice "message") (fun msg =>
  bind (get msg "content") (fun content =>
  call_trim content)))).

Definition script_body (script : string) (duration : Z) : body :=
  Json [("script", VStr script); ("srt", VStr (buildSRT script duration))].

(** The handler of [POST /api/generate-script] from its [try] on, the
    prompt having been built; [complete] is the awaited call of the language
    model. *)
Definition generate_script (v : variant) (complete : chat_request -> result value)
    (r : script_request) : M unit :=
  mtry
    (c <- lift (complete (chat_request_of v r)) ;;
     script <- lift (completion_text c) ;;
     act (fun w => set_res (Response (status (res w)) (Some "application/json")
                                     (Some (script_body script (s_duration_of r)))
                                     true) w))
    (fun e =>
       act (add_log ("Script error: " ++ message e)) ;;;
       act (set_res (Response 500 (Some "application/json") (Some (json_error e)) true))).


(** The body of a later [POST /api/generate-video] that carries the script
    and subtitle text of an answer of this route. *)
Definition follow_up (answer : body) (voice : value) (duration : option Z) : request :=
  match answer with
  | Json fields =>
      Request (match lookup "script" fields with Some x => x | None => VUndefined end)
              (match lookup "srt" fields with Some x => x | None => VUndefined end)
              VUndefined voice duration
  | FileStream _ => Request VUndefined VUndefined VUndefined voice duration
  end.

End ScriptRoute.

(** ** Characters at the ends of a string, and further samples *)

Module Coverage.
Import JsString Js Subtitles Pipeline ScriptRoute.

Definition first_char (s : string) : option ascii :=
  match s with
  | EmptyString => None
  | String c _ => Some c
  end.

Fixpoint last_char (s : string) : option ascii :=
  match s with
  | EmptyString => None
  | String c r =>
      match last_char r with
      | None => Some c
      | Some d => Some d
      end
  end.

Definition not_space (o : option ascii) : Prop :=
  exists c, o = Some c /\ is_space c = false.

Fixpoint all_space (s : string) : bool :=
  match s with
  | EmptyString => true
  | String c r => is_space c && all_space r
  end.

(** A line as [script_lines] keeps it. *)
Definition clean_line (l : string) : Prop :=
  l <> "" /\ mem LF l = false /\
  not_space (first_char l) /\ not_space (last_char l).

(** The files of a world outside a directory. *)
Definition outside (dir : string) (w : world) : list (string * content) :=
  filter (fun f => negb (under dir f)) (files w).

(** A footage search that finds one file with the link [url]. *)
Definition footage (url : value) : value :=
  VObj [("data", VObj [("videos", VArr [VObj [("video_files",
                                               VArr [VObj [("link", url)]])]])])].

(** A completion with one choice whose message carries [content]. *)
Definition completion (content : value) : value :=
  VObj [("choices", VArr [VObj [("message", VObj [("content", content)])]])].

Definition mac_env : env :=
  Env "darwin" "/srv/app" "job-2" 4294967296
      (fun _ => Ok (footage (VStr "https://videos.example/clip.mp4")))
      (fun _ => Ok Media) (fun _ => Ok tt) (fun _ => Ok tt) Aborted.

Definition busy_world : world :=
  World ["/srv/app/temp/job-0"; "/srv/app/temp"]
        [("/srv/app/temp/job-0/bg.mp4", Media); ("/srv/app/index.html", Text "<html>")]
        ["/srv/app/temp/job-0"] [] [] fresh_response.

(** The body [{ "topic": { "toString": 1 } }]. *)
Definition odd_topic_request : script_request :=
  ScriptRequest (VObj [("toString", VNum 1)]) None VUndefined VUndefined VUndefined.

Definition some_script_request : script_request :=
  ScriptRequest (VStr "tides") (Some 10) (VStr "Professional") (VStr "Female") VUndefined.

End Coverage.
(** * Properties *)

(** ** Strings *)

Section StringFacts.
Import JsString.

Lemma append_assoc (a b c : string) : (a ++ b) ++ c = a ++ (b ++ c).
Proof. induction a as [|x a IH]; simpl; [reflexivity | now rewrite IH]. Qed.

Lemma append_nil_r (a : string) : a ++ "" = a.
Proof. induction a as [|x a IH]; simpl; [reflexivity | now rewrite IH]. Qed.

Lemma length_append (a b : string) :
  String.length (a ++ b) = (String.length a + String.length b)%nat.
Proof. induction a as [|x a IH]; simpl; [reflexivity | now rewrite IH]. Qed.

Lemma mem_append (c : ascii) (a b : string) :
  mem c (a ++ b) = mem c a || mem c b.
Proof.
  induction a as [|x a IH]; simpl; [reflexivity|].
  rewrite IH. now rewrite orb_assoc.
Qed.

Lemma occurrences_append (c : ascii) (a b : string) :
  occurrences c (a ++ b) = (occurrences c a + occurrences c b)%nat.
Proof. induction a as [|x a IH]; simpl; [reflexivity | rewrite IH; lia]. Qed.

Lemma split_cons_sep (sep : ascii) (r : string) :
  split sep (String sep r) = "" :: split sep r.
Proof. simpl. now rewrite Ascii.eqb_refl. Qed.

(** A piece free of the separator is cut off at the first separator. *)
Lemma split_append (sep : ascii) (a r : string) :
  mem sep a = false ->
  split sep (a ++ String sep r) = a :: split sep r.
Proof.
  induction a as [|x a IH]; intros H.
  - apply split_cons_sep.
  - simpl in H. apply orb_false_iff in H as [Hx Ha].
    cbn [append split]. rewrite Hx, (IH Ha). reflexivity.
Qed.

Lemma split_no_sep (sep : ascii) (a : string) :
  mem sep a = false -> split sep a = [a].
Proof.
  induction a as [|x a IH]; intros H; [reflexivity|].
  simpl in H. apply orb_false_iff in H as [Hx Ha].
  cbn [split]. rewrite Hx, (IH Ha). reflexivity.
Qed.

(** No piece returned by [split] contains the separator. *)
Lemma split_pieces (sep : ascii) (s : string) :
  Forall (fun l => mem sep l = false) (split sep s).
Proof.
  induction s as [|x s IH]; cbn [split].
  - repeat constructor.
  - destruct (Ascii.eqb x sep) eqn:E.
    + constructor; [reflexivity | exact IH].
    + destruct (split sep s) as [|h t].
      * repeat constructor. simpl. now rewrite E.
      * inversion IH; subst. constructor; [|assumption].
        simpl. rewrite E. assumption.
Qed.

Lemma trimStart_mem (c : ascii) (s : string) :
  mem c s = false -> mem c (trimStart s) = false.
Proof.
  induction s as [|x s IH]; intros H; [reflexivity|].
  cbn [trimStart]. destruct (is_space x); [|exact H].
  simpl in H. apply orb_false_iff in H as [_ Hs]. auto.
Qed.

Lemma trimEnd_mem (c : ascii) (s : string) :
  mem c s = false -> mem c (trimEnd s) = false.
Proof.
  induction s as [|x s IH]; intros H; [reflexivity|].
  simpl in H. apply orb_false_iff in H as [Hx Hs].
  cbn [trimEnd]. specialize (IH Hs).
  destruct (trimEnd s) as [|y r].
  - destruct (is_space x); [reflexivity|]. simpl. now rewrite Hx.
  - cbn [mem]. cbn [mem] in IH. now rewrite Hx, IH.
Qed.

Lemma trim_mem (c : ascii) (s : string) :
  mem c s = false -> mem c (trim s) = false.
Proof. intros H. unfold trim. now apply trimEnd_mem, trimStart_mem. Qed.

End StringFacts.


(** ** Decimal numerals and time stamps *)

Section NumeralFacts.
Import JsString Subtitles.

Lemma all_digits_append (a b : string) :
  all_digits (a ++ b) = all_digits a && all_digits b.
Proof.
  induction a as [|x a IH]; simpl; [reflexivity|].
  now rewrite IH, andb_assoc.
Qed.

Lemma all_digits_mem (c : ascii) (s : string) :
  is_digit c = false -> all_digits s = true -> mem c s = false.
Proof.
  intros Hc. induction s as [|x s IH]; simpl; [reflexivity|].
  intros H. apply andb_true_iff in H as [Hx Hs].
  rewrite (IH Hs), orb_false_r.
  destruct (Ascii.eqb_spec x c) as [->|]; [congruence | reflexivity].
Qed.

Lemma all_digits_uint (d : Decimal.uint) :
  all_digits (NilEmpty.string_of_uint d) = true.
Proof. induction d; simpl; auto. Qed.

Lemma of_int_pos (p : positive) :
  of_int (Z.pos p) = NilEmpty.string_of_uint (Pos.to_uint p).
Proof.
  unfold of_int. cbn [Z.to_int NilZero.string_of_int].
  pose proof (Unsigned.to_uint_nonnil p) as Hn.
  unfold NilZero.string_of_uint.
  destruct (Pos.to_uint p); [congruence | reflexivity ..].
Qed.

Lemma of_int_digits (z : Z) : 0 <= z -> all_digits (of_int z) = true.
Proof.
  destruct z as [|p|p]; intros H; [reflexivity | | lia].
  rewrite of_int_pos. apply all_digits_uint.
Qed.

(** [String(z)] read back as a numeral gives [z]. *)
Lemma parse_num_of_int (z : Z) : 0 <= z -> parse_num (of_int z) = Some z.
Proof.
  destruct z as [|p|p]; intros H; [reflexivity | | lia].
  unfold parse_num, of_int. cbn [Z.to_int NilZero.string_of_int].
  rewrite NilZero.usu by apply Unsigned.to_uint_nonnil.
  cbn [option_map]. unfold Z.of_uint.
  now rewrite Unsigned.of_to.
Qed.

Lemma parse_num_padStart (s : string) (z : Z) :
  parse_num s = Some z -> parse_num (padStart 2 "0" s) = Some z.
Proof.
  destruct s as [|a [|b r]]; intros H.
  - discriminate.
  - unfold parse_num, NilZero.uint_of_string in *.
    change (padStart 2 "0" (String a "")) with (String "0" (String a "")).
    cbn [NilEmpty.uint_of_string] in *.
    destruct (uint_of_char a (Some Decimal.Nil)) as [d|]; [|discriminate].
    cbn [option_map] in H. injection H as <-. reflexivity.
  - exact H.
Qed.

Lemma all_digits_padStart (s : string) :
  all_digits s = true -> all_digits (padStart 2 "0" s) = true.
Proof.
  destruct s as [|a [|b r]]; intros H; [reflexivity | | exact H].
  unfold padStart. cbn. cbn in H. exact H.
Qed.

Lemma field_digits (z : Z) : 0 <= z -> all_digits (field z) = true.
Proof. intros H. apply all_digits_padStart, of_int_digits, H. Qed.

Lemma field_parse (z : Z) : 0 <= z -> parse_num (field z) = Some z.
Proof. intros H. apply parse_num_padStart, parse_num_of_int, H. Qed.

Lemma field_mem (c : ascii) (z : Z) :
  is_digit c = false -> 0 <= z -> mem c (field z) = false.
Proof. intros Hc H. apply all_digits_mem; [exact Hc | now apply field_digits]. Qed.

Lemma fmt_fields (sec : Z) :
  fmt sec = field (sec / 3600) ++ ":" ++ field (Z.rem sec 3600 / 60) ++ ":"
            ++ field (Z.rem sec 60) ++ ",000".
Proof. reflexivity. Qed.

Lemma fmt_field_bounds (sec : Z) :
  0 <= sec ->
  0 <= sec / 3600 /\ 0 <= Z.rem sec 3600 / 60 /\ 0 <= Z.rem sec 60 /\
  sec / 3600 * 3600 + Z.rem sec 3600 / 60 * 60 + Z.rem sec 60 = sec.
Proof.
  intros H.
  rewrite !Z.rem_mod_nonneg by lia.
  pose proof (Z.mod_pos_bound sec 3600 ltac:(lia)).
  pose proof (Z.mod_pos_bound sec 60 ltac:(lia)).
  pose proof (Z.div_pos sec 3600 H ltac:(lia)).
  pose proof (Z.div_pos (sec mod 3600) 60 ltac:(lia) ltac:(lia)).
  repeat split; try lia.
  Z.div_mod_to_equations. lia.
Qed.

(** The time stamp of a non-negative offset has no line break and no space. *)
Lemma fmt_mem (c : ascii) (sec : Z) :
  is_digit c = false -> mem c ":,000" = false -> 0 <= sec ->
  mem c (fmt sec) = false.
Proof.
  intros Hc Hp H. destruct (fmt_field_bounds sec H) as (Hh & Hm & Hs & _).
  rewrite fmt_fields, !mem_append.
  rewrite !field_mem by assumption.
  cbn [mem orb] in *.
  apply orb_false_iff in Hp as [Hcol Hp].
  rewrite Hcol. cbn [orb]. exact Hp.
Qed.

(** The millisecond field of every time stamp is [000]. *)
Lemma fmt_millis (sec : Z) : exists hms, fmt sec = hms ++ ",000".
Proof.
  eexists. rewrite fmt_fields.
  rewrite <- !append_assoc. reflexivity.
Qed.

(** The stamp of an offset denotes that offset, in milliseconds. *)
Lemma stamp_value_fmt (sec : Z) :
  0 <= sec -> stamp_value (fmt sec) = Some (1000 * sec).
Proof.
  intros H. destruct (fmt_field_bounds sec H) as (Hh & Hm & Hs & Hsum).
  unfold stamp_value. rewrite fmt_fields.
  change (":" ++ ?x) with (String ":" x).
  cbn [append].
  rewrite split_append by (apply field_mem; [reflexivity | assumption]).
  rewrite split_append by (apply field_mem; [reflexivity | assumption]).
  rewrite split_no_sep
    by (rewrite mem_append, field_mem by (reflexivity || assumption); reflexivity).
  change (field (Z.rem sec 60) ++ ",000")
    with (field (Z.rem sec 60) ++ String "," "000").
  rewrite split_append by (apply field_mem; [reflexivity | assumption]).
  rewrite (split_no_sep "," "000") by reflexivity.
  rewrite !field_parse by assumption.
  change (parse_num "000") with (Some 0).
  cbv iota beta. rewrite Hsum. f_equal. lia.
Qed.

Lemma field_length (z : Z) : 0 <= z < 100 -> String.length (field z) = 2%nat.
Proof.
  intros H.
  assert (Hall : forallb (fun k => Nat.eqb (String.length (field (Z.of_nat k))) 2)
                         (seq 0 100) = true) by (vm_compute; reflexivity).
  rewrite forallb_forall in Hall.
  specialize (Hall (Z.to_nat z)). rewrite Z2Nat.id in Hall by lia.
  apply Nat.eqb_eq, Hall, in_seq. lia.
Qed.

Lemma parse_field_field (z : Z) : 0 <= z < 100 -> parse_field 2 (field z) = Some z.
Proof.
  intros H. unfold parse_field. rewrite field_length by exact H.
  cbn [Nat.eqb]. apply field_parse. lia.
Qed.

Lemma fmt_field_ranges (sec : Z) :
  0 <= sec < 360000 ->
  0 <= sec / 3600 < 100 /\ 0 <= Z.rem sec 3600 / 60 < 100 /\ 0 <= Z.rem sec 60 < 100.
Proof.
  intros [H0 H1]. destruct (fmt_field_bounds sec H0) as (Hh & Hm & Hs & _).
  assert (sec / 3600 < 100) by (apply Z.div_lt_upper_bound; lia).
  assert (Z.rem sec 3600 / 60 < 60).
  { rewrite Z.rem_mod_nonneg by lia. apply Z.div_lt_upper_bound; [lia|].
    pose proof (Z.mod_pos_bound sec 3600 ltac:(lia)). lia. }
  assert (Z.rem sec 60 < 60).
  { rewrite Z.rem_mod_nonneg by lia.
    pose proof (Z.mod_pos_bound sec 60 ltac:(lia)). lia. }
  lia.
Qed.

(** Reading a time stamp of the format back gives the offset, in
    milliseconds, when the offset is below 100 hours. *)
Lemma parse_time_fmt (sec : Z) :
  0 <= sec < 360000 -> parse_time (fmt sec) = Some (1000 * sec).
Proof.
  intros H. destruct (fmt_field_ranges sec H) as (Rh & Rm & Rs).
  destruct H as [H0 H1].
  destruct (fmt_field_bounds sec H0) as (Hh & Hm & Hs & Hsum).
  unfold parse_time. rewrite fmt_fields.
  change (":" ++ ?x) with (String ":" x).
  cbn [append].
  rewrite split_append by (apply field_mem; [reflexivity | assumption]).
  rewrite split_append by (apply field_mem; [reflexivity | assumption]).
  rewrite split_no_sep
    by (rewrite mem_append, field_mem by (reflexivity || assumption); reflexivity).
  change (field (Z.rem sec 60) ++ ",000")
    with (field (Z.rem sec 60) ++ String "," "000").
  rewrite split_append by (apply field_mem; [reflexivity | assumption]).
  rewrite (split_no_sep "," "000") by reflexivity.
  rewrite !parse_field_field by assumption.
  change (parse_field 3 "000") with (Some 0).
  cbv iota beta. rewrite Hsum. f_equal. lia.
Qed.

End NumeralFacts.

(** ** The subtitle builder *)

Section SubtitleFacts.
Import JsString Subtitles.

Lemma nl_append (x : string) : nl ++ x = String LF x.
Proof. reflexivity. Qed.

(** The loop of [buildSRT] appends the rendering of each cue in turn. *)
Lemma forEach_render (per dur : Z) (lines : list string) (i : Z) (acc : string) :
  forEach
    (fun srt l i =>
       let s := i * per in
       let e := Z.min (s + per) dur in
       srt ++ (of_int (i + 1) ++ nl ++ fmt s ++ " --> " ++ fmt e ++ nl ++ l ++ nl ++ nl))
    lines i acc
  = acc ++ concat (map render (cues_from i per dur lines)).
Proof.
  revert i acc. induction lines as [|l r IH]; intros i acc.
  - cbn [forEach cues_from map concat]. now rewrite append_nil_r.
  - cbn [forEach cues_from map concat]. rewrite IH, append_assoc. reflexivity.
Qed.

Lemma buildSRT_render (script : string) (dur : Z) :
  buildSRT script dur = concat (map render (cues script dur)).
Proof. unfold buildSRT, cues. cbv zeta. now rewrite forEach_render. Qed.

Lemma cues_from_length (i per dur : Z) (lines : list string) :
  List.length (cues_from i per dur lines) = List.length lines.
Proof.
  revert i. induction lines as [|l r IH]; intros i; cbn [cues_from List.length];
    [reflexivity | now rewrite IH].
Qed.

Lemma cues_from_text (i per dur : Z) (lines : list string) :
  map cue_text (cues_from i per dur lines) = lines.
Proof.
  revert i. induction lines as [|l r IH]; intros i; cbn [cues_from map];
    [reflexivity | now rewrite IH].
Qed.

Lemma per_line_min (dur : Z) (n : nat) : 2 <= per_line dur n.
Proof. unfold per_line. lia. Qed.

(** What holds of every cue whatever the number of lines. *)
Lemma cues_from_range (i per dur : Z) (lines : list string) :
  0 <= i -> 0 <= per ->
  Forall (fun c => 0 <= cue_start c /\ cue_end c <= dur) (cues_from i per dur lines).
Proof.
  revert i. induction lines as [|l r IH]; intros i Hi Hp; cbn [cues_from].
  - constructor.
  - constructor; [cbn; split; nia | apply IH; lia].
Qed.

(** The track is well formed when the last cue starts before the end. *)
Lemma cues_from_well_formed (i per dur : Z) (lines : list string) :
  0 <= i -> 0 < per ->
  (i + Z.of_nat (List.length lines) - 1) * per < dur ->
  well_formed dur (cues_from i per dur lines).
Proof.
  revert i. induction lines as [|l r IH]; intros i Hi Hp Hlast.
  - split; [exact I | constructor].
  - cbn [List.length] in Hlast. rewrite Nat2Z.inj_succ in Hlast.
    assert (Hs : i * per < dur) by nia.
    destruct (IH (i + 1)) as [Hc Hb]; [lia | lia | |].
    { replace (i + 1 + Z.of_nat (List.length r) - 1)
        with (i + Z.succ (Z.of_nat (List.length r)) - 1) by lia. exact Hlast. }
    split.
    + cbn [cues_from]. destruct r as [|l' r'].
      * exact I.
      * cbn [cues_from contiguous] in *. split; [|exact Hc].
        cbn [cue_start cue_end].
        cbn [List.length] in Hlast. rewrite Nat2Z.inj_succ in Hlast.
        assert ((i + 1) * per <= dur) by nia. lia.
    + cbn [cues_from]. constructor; [|exact Hb].
      unfold in_bounds. cbn [cue_start cue_end]. repeat split; nia.
Qed.

(** Otherwise the last cue starts at or after its own end. *)
Lemma cues_from_ill_formed (i per dur : Z) (lines : list string) :
  lines <> [] ->
  dur <= (i + Z.of_nat (List.length lines) - 1) * per ->
  ~ Forall (in_bounds dur) (cues_from i per dur lines).
Proof.
  revert i. induction lines as [|l r IH]; intros i Hne Hlast HF; [congruence|].
  cbn [cues_from] in HF. inversion HF as [|c cs Hc Hcs]; subst.
  destruct r as [|l' r'].
  - cbn in Hlast. unfold in_bounds in Hc. cbn [cue_start cue_end] in Hc.
    replace (i + 1 - 1) with i in Hlast by lia. lia.
  - apply (IH (i + 1)); [discriminate | | exact Hcs].
    cbn [List.length] in *. rewrite !Nat2Z.inj_succ in *.
    replace (i + 1 + Z.succ (Z.of_nat (List.length r')) - 1)
      with (i + Z.succ (Z.succ (Z.of_nat (List.length r'))) - 1) by lia.
    exact Hlast.
Qed.

(** The lines of a script hold no line break. *)
Lemma script_lines_no_LF (script : string) :
  Forall (fun l => mem LF l = false) (script_lines script).
Proof.
  unfold script_lines.
  pose proof (split_pieces LF script) as H.
  induction H as [|l ls Hl _ IH]; cbn [map filter]; [constructor|].
  destruct (truthy (trim l)); [|exact IH].
  constructor; [now apply trim_mem | exact IH].
Qed.

Lemma script_lines_nonempty (script : string) :
  Forall (fun l => l <> "") (script_lines script).
Proof.
  unfold script_lines. apply Forall_forall. intros l Hl.
  apply filter_In in Hl as [_ Hl]. unfold truthy in Hl.
  intros ->. discriminate.
Qed.

(** *** Reading the serialised track back *)

Lemma parse_range_fmt (s e : Z) :
  0 <= s < 360000 -> 0 <= e < 360000 ->
  parse_range (fmt s ++ " --> " ++ fmt e) = Some (1000 * s, 1000 * e).
Proof.
  intros Hs He. unfold parse_range.
  change (fmt s ++ " --> " ++ fmt e)
    with (fmt s ++ String " " ("-->" ++ String " " (fmt e))).
  rewrite split_append by (apply fmt_mem; [reflexivity | reflexivity | lia]).
  rewrite split_append by reflexivity.
  rewrite split_no_sep by (apply fmt_mem; [reflexivity | reflexivity | lia]).
  change ("-->" =? "-->")%string with true. cbv iota.
  now rewrite !parse_time_fmt.
Qed.

Lemma parse_blocks_block (k : Z) (t x : string) (rest : list string) :
  parse_blocks k (of_int k :: t :: x :: "" :: rest) =
  match parse_range t, parse_blocks (k + 1) rest with
  | Some (s, e), Some cs => Some (TimedCue k s e x :: cs)
  | _, _ => None
  end.
Proof. cbn [parse_blocks]. rewrite String.eqb_refl. reflexivity. Qed.

Lemma split_render (c : cue) (tail : string) :
  readable c ->
  split LF (render c ++ tail) =
  of_int (cue_index c) :: (fmt (cue_start c) ++ " --> " ++ fmt (cue_end c))
    :: cue_text c :: "" :: split LF tail.
Proof.
  intros (Hi & Hs & He & Ht). unfold render.
  rewrite !append_assoc, !nl_append.
  rewrite split_append
    by (apply all_digits_mem; [reflexivity | now apply of_int_digits]).
  rewrite <- (append_assoc " --> " (fmt (cue_end c))).
  rewrite <- (append_assoc (fmt (cue_start c)) (" --> " ++ fmt (cue_end c))).
  rewrite split_append.
  - rewrite split_append by exact Ht. now rewrite split_cons_sep.
  - rewrite !mem_append.
    rewrite !fmt_mem by (reflexivity || assumption). reflexivity.
Qed.

(** The blocks written for a run of lines are read back as its cues. *)
Lemma parse_render (per dur : Z) (lines : list string) (i : Z) :
  Forall readable (cues_from i per dur lines) ->
  Forall below_100h (cues_from i per dur lines) ->
  parse_blocks (i + 1) (split LF (concat (map render (cues_from i per dur lines))))
  = Some (map in_ms (cues_from i per dur lines)).
Proof.
  revert i. induction lines as [|l r IH]; intros i Hr Hb; [reflexivity|].
  cbn [cues_from] in *.
  inversion Hr as [|c cs Hc Hcs]; subst. inversion Hb as [|c' cs' Bc Bcs]; subst.
  cbn [map concat]. rewrite split_render by exact Hc.
  cbn [cue_index cue_start cue_end cue_text].
  rewrite parse_blocks_block, (IH (i + 1) Hcs Bcs).
  destruct Hc as (_ & Hs & He & _). destruct Bc as [Bs Be].
  cbn [cue_start cue_end] in *.
  rewrite parse_range_fmt by lia. reflexivity.
Qed.

Lemma cues_from_readable (i per dur : Z) (lines : list string) :
  0 <= i -> 0 <= per -> 0 <= dur ->
  Forall (fun l => mem LF l = false) lines ->
  Forall readable (cues_from i per dur lines).
Proof.
  intros Hi Hp Hd HF. revert i Hi.
  induction HF as [|l r Hl _ IH]; intros i Hi; cbn [cues_from]; constructor.
  - unfold readable. cbn [cue_index cue_start cue_end cue_text].
    repeat split; try assumption; nia.
  - apply IH. lia.
Qed.

End SubtitleFacts.

(** ** The asset resolver *)

Section ResolverFacts.
Import JsString Js Pipeline.

Lemma or_else_truthy (a b : value) : truthy b = true -> truthy (or_else a b) = true.
Proof. intros H. unfold or_else. destruct (truthy a) eqn:E; assumption. Qed.

Lemma try_catch_total {A : Type} (body : result A) (h : error -> result A) :
  (forall e, exists a, h e = Ok a) -> exists a, try_catch body h = Ok a.
Proof.
  intros H. destruct body as [a|e]; cbn; [now exists a | apply H].
Qed.

(** [getBg] never raises; it returns the link it found, when that is truthy,
    and the fallback otherwise. *)
Lemma getBg_total (E : env) (style : value) :
  exists url, getBg E style = Ok url /\ truthy url = true /\
    (url = VStr FALLBACK \/
     exists q r, search E [("query", VStr q); ("per_page", VNum 1)] = Ok r /\
                 first_link r = Ok url).
Proof.
  unfold getBg.
  destruct (call_includes style "Professional") as [b|e]; cbn [bind try_catch].
  2:{ exists (VStr FALLBACK). repeat split; auto. }
  destruct (search E _) as [r|e] eqn:Hs; cbn [bind try_catch].
  2:{ exists (VStr FALLBACK). repeat split; auto. }
  destruct (first_link r) as [link|e] eqn:Hl; cbn [bind try_catch].
  2:{ exists (VStr FALLBACK). repeat split; auto. }
  exists (or_else link (VStr FALLBACK)). split; [reflexivity|]. split.
  - now apply or_else_truthy.
  - unfold or_else. destruct (truthy link); [right | now left].
    eexists _, r. split; [exact Hs | exact Hl].
Qed.

(** An object without videos, or with an empty list of them, has no link. *)
Lemma first_link_no_video (data : list (string * value)) :
  lookup "videos" data = Some (VArr []) ->
  first_link (VObj [("data", VObj data)]) = Ok VUndefined.
Proof. intros H. unfold first_link. cbn. rewrite H. reflexivity. Qed.

(** The earlier resolver returns [null] whenever the search succeeds without
    a truthy link. *)
Lemma fetchPexelsVideo_null (E : env) (query r link : value) :
  search E [("query", query); ("per_page", VNum 1);
            ("orientation", VStr "landscape")] = Ok r ->
  first_link r = Ok link -> truthy link = false ->
  fetchPexelsVideo E query = Ok VNull.
Proof.
  intros Hs Hl Ht. unfold fetchPexelsVideo. rewrite Hs. cbn [bind].
  rewrite Hl. cbn [bind try_catch]. unfold or_else. now rewrite Ht.
Qed.

End ResolverFacts.

(** ** The job pipeline *)

Section PipelineFacts.
Import JsString Js Pipeline.

Lemma style_unbound (v : variant) (r : request) (job dir : string) :
  resolve (handler_scope v r job dir ++ module_scope v ++ node_scope)%list "style"
  = Throw (ReferenceError "style is not defined").
Proof. destruct v; reflexivity. Qed.

Lemma filter_self_absent (dir : string) (l : list string) :
  ~ In dir (filter (fun d => negb (beneath dir d)) l).
Proof.
  intros H. apply filter_In in H as [_ H]. unfold beneath in H.
  now rewrite String.eqb_refl in H.
Qed.

Lemma remove_absent (dir : string) (w : world) : ~ In dir (dirs (remove dir w)).
Proof. cbn [remove dirs]. apply filter_self_absent. Qed.

Lemma remove_subset (d dir : string) (w : world) :
  In d (dirs (remove dir w)) -> In d (dirs w).
Proof. cbn [remove dirs]. intros H. now apply filter_In in H. Qed.

Lemma fold_remove_absent (d : string) (l : list string) (w : world) :
  In d l -> ~ In d (dirs (fold_right remove w l)).
Proof.
  induction l as [|x l IH]; intros H; [contradiction|].
  cbn [fold_right]. destruct (String.eqb_spec d x) as [->|Hne].
  - apply remove_absent.
  - destruct H as [H|H]; [congruence|].
    intros Hin. apply remove_subset in Hin. now apply IH.
Qed.

(** Once its timer has fired a directory is gone. *)
Lemma fire_timers_absent (d : string) (w : world) :
  In d (timers w) -> ~ In d (dirs (fire_timers w)).
Proof. intros H. unfold fire_timers. cbn [dirs]. now apply fold_remove_absent. Qed.

Lemma fire_timers_subset (d : string) (w : world) :
  In d (dirs (fire_timers w)) -> In d (dirs w).
Proof.
  unfold fire_timers. cbn [dirs]. induction (timers w) as [|x l IH]; cbn [fold_right].
  - auto.
  - intros H. apply remove_subset in H. auto.
Qed.

Ltac unfold_M :=
  cbv [mbind act lift ret read throw mtry run_engine writeFile write_silence
       generateTTS];
  cbv beta iota.

Ltac split_steps H :=
  repeat match type of H with
  | context [match ?x with Ok _ => _ | Throw _ => _ end] => destruct x eqn:?
  | context [match ?x with Completed => _ | Aborted => _ end] => destruct x eqn:?
  | context [match ?x with ServerJs => _ | EarlierVariant => _ end] => destruct x eqn:?
  | context [let (_, _) := ?x in _] => destruct x eqn:?
  end; cbv beta iota in H.

(** The engine runs of a job: a prefix of trim, mux, burn, in this order. *)
Lemma job_body_runs (outer : scope) (v : variant) (E : env) (r : request)
    (w w1 : world) (out : result unit) :
  job_body v E outer r (uuid E) (workspace E) w = (out, w1) ->
  exists k, runs w1 = (skipn k (job_commands v (workspace E) (duration_of r)) ++ runs w)%list.
Proof.
  unfold job_body. unfold_M. intros H. split_steps H.
  all: cbn in H; injection H as <- <-; cbn [runs add_run put_file set_res add_timer add_log].
  all: first [ now exists 3%nat | now exists 2%nat | now exists 1%nat | now exists 0%nat ].
Qed.

(** A job that gets through its [try] block has begun the response stream,
    and has scheduled the removal of its workspace when the sink completes. *)
Lemma job_body_done (outer : scope) (v : variant) (E : env) (r : request)
    (w w1 : world) :
  job_body v E outer r (uuid E) (workspace E) w = (Ok tt, w1) ->
  dirs w1 = dirs w /\
  sent (res w1) = Some (FileStream (p_final (job_paths v (workspace E)))) /\
  timers w1 = match sink E with
              | Completed => workspace E :: timers w
              | Aborted => timers w
              end.
Proof.
  unfold job_body. unfold_M. intros H. split_steps H.
  all: cbn in H; try discriminate.
  all: injection H as <-; cbn; auto.
Qed.

(** The [catch] block removes the workspace and, when no header has been
    sent, answers with status 500 and the message of the error. *)
Lemma job_catch_spec (v : variant) (dir : string) (e : error) (w : world) :
  exists w', job_catch v dir e w = (Ok tt, w') /\
    ~ In dir (dirs w') /\ timers w' = timers w /\ runs w' = runs w /\
    (headersSent (res w) = false ->
     res w' = Response 500 (Some "application/json") (Some (json_error e)) true).
Proof.
  unfold job_catch. unfold_M. cbn [res headersSent remove add_log].
  destruct (headersSent (res w)) eqn:Hs; eexists; (split; [reflexivity|]);
    cbn [dirs timers runs res set_res]; repeat split;
    try discriminate; apply filter_self_absent.
Qed.

(** The [try] block of the server files as they are: it raises before the
    footage is looked up. *)
Lemma job_body_raises (v : variant) (E : env) (r : request) (w : world) :
  exists w1,
    job_body v E (module_scope v ++ node_scope)%list r (uuid E) (workspace E) w
    = (Throw (if is_string (srt r)
              then ReferenceError "style is not defined"
              else TypeError data_type_message), w1)
    /\ dirs w1 = dirs w /\ timers w1 = timers w /\ runs w1 = runs w
    /\ headersSent (res w1) = headersSent (res w).
Proof.
  unfold job_body. rewrite style_unbound. unfold_M.
  destruct v, (srt r); cbn; eexists; (split; [reflexivity|]); cbn; auto.
Qed.

(** Were [style] bound and every stage to succeed, a response sink that
    never completes would leave the workspace on disk with no removal
    pending: the stream has no error handler. *)
Lemma aborted_stream_keeps_workspace (outer : scope) (v : variant) (E : env)
    (r : request) (w w1 : world) :
  job_body v E outer r (uuid E) (workspace E) (ensureDir (workspace E) w) = (Ok tt, w1) ->
  sink E = Aborted ->
  let out := snd (generate_video_in outer v E r w) in
  In (workspace E) (dirs out) /\ timers out = timers w.
Proof.
  intros Hb Hsink out.
  assert (Hout : out = w1).
  { unfold out, generate_video_in.
    change (join (join (dirname E) "temp") (uuid E)) with (workspace E).
    cbv zeta. unfold mbind at 1. cbn [act]. unfold mtry. now rewrite Hb. }
  destruct (job_body_done _ _ _ _ _ _ Hb) as (Hd & _ & Ht).
  rewrite Hsink in Ht. rewrite Hout, Hd, Ht. split; [|reflexivity].
  cbn [ensureDir dirs].
  destruct (existsb (String.eqb (workspace E)) (dirs w)) eqn:Ex.
  - apply existsb_exists in Ex as (d & Hin & Heq).
    apply String.eqb_eq in Heq. now subst d.
  - now left.
Qed.

(** The outcome of the handler does not depend on the services. *)
Lemma generate_video_services (v : variant) (E E' : env) (r : request) (w : world) :
  dirname E' = dirname E -> uuid E' = uuid E ->
  generate_video v E' r w = generate_video v E r w.
Proof.
  intros Hd Hu. unfold generate_video, generate_video_in, job_body.
  rewrite Hd, Hu, !style_unbound. unfold_M.
  destruct v, (srt r); reflexivity.
Qed.

End PipelineFacts.

(** ** Escaping the subtitle path *)

Section EscapeFacts.
Import JsString Js Pipeline.

Lemma escape_colons_cons (c : ascii) (s : string) :
  escape_colons (String c s) = escape_char c ++ escape_colons s.
Proof.
  unfold escape_colons, escape_char. cbn [replace_all].
  destruct (Ascii.eqb c ":"); reflexivity.
Qed.

(** Character by character: a colon gives a backslash and a colon, any other
    character gives itself. *)
Lemma escape_colons_chars (s : string) :
  escape_colons s = concat (map escape_char (list_ascii_of_string s)).
Proof.
  induction s as [|c s IH]; [reflexivity|].
  rewrite escape_colons_cons. cbn [list_ascii_of_string map concat].
  now rewrite IH.
Qed.

(** An escaped path never begins with a bare colon. *)
Lemma escape_colons_head (s r : string) : escape_colons s <> String ":" r.
Proof.
  destruct s as [|c s]; [discriminate|].
  rewrite escape_colons_cons. unfold escape_char.
  destruct (Ascii.eqb_spec c ":") as [->|Hne]; cbn; [discriminate|].
  intros H. injection H as H _. contradiction.
Qed.

Lemma unescape_escape (s : string) : unescape_colons (escape_colons s) = s.
Proof.
  induction s as [|c s IH]; [reflexivity|].
  rewrite escape_colons_cons. unfold escape_char.
  destruct (Ascii.eqb_spec c ":") as [->|Hne].
  - cbn. now rewrite IH.
  - cbn [append unescape_colons].
    destruct (escape_colons s) as [|c' r'] eqn:Es.
    + destruct s; [reflexivity|].
      rewrite escape_colons_cons in Es. unfold escape_char in Es.
      destruct (Ascii.eqb a ":"); discriminate.
    + destruct (Ascii.eqb c "\" && Ascii.eqb c' ":") eqn:Eb.
      * apply andb_true_iff in Eb as [_ Eb]. apply Ascii.eqb_eq in Eb. subst c'.
        exfalso. exact (escape_colons_head s r' Es).
      * now rewrite IH.
Qed.

Lemma escape_colons_colons (s : string) :
  occurrences ":" (escape_colons s) = occurrences ":" s.
Proof.
  induction s as [|c s IH]; [reflexivity|].
  rewrite escape_colons_cons, occurrences_append, IH. unfold escape_char.
  cbn [occurrences]. destruct (Ascii.eqb_spec c ":") as [->|Hne]; cbn.
  - reflexivity.
  - apply Ascii.eqb_neq in Hne. rewrite Hne. reflexivity.
Qed.

Lemma escape_colons_backslashes (s : string) :
  occurrences "\" (escape_colons s)
  = (occurrences "\" s + occurrences ":" s)%nat.
Proof.
  induction s as [|c s IH]; [reflexivity|].
  rewrite escape_colons_cons, occurrences_append, IH. unfold escape_char.
  cbn [occurrences]. destruct (Ascii.eqb_spec c ":") as [->|Hne]; cbn.
  - lia.
  - destruct (Ascii.eqb c "\"); lia.
Qed.

Lemma escape_colons_length (s : string) :
  String.length (escape_colons s)
  = (String.length s + occurrences ":" s)%nat.
Proof.
  induction s as [|c s IH]; [reflexivity|].
  rewrite escape_colons_cons, length_append, IH. unfold escape_char.
  cbn [occurrences String.length]. destruct (Ascii.eqb c ":"); cbn; lia.
Qed.

Lemma append_inj_r (a x y : string) : a ++ x = a ++ y -> x = y.
Proof.
  induction a as [|c a IH]; cbn; intros H; [exact H|].
  injection H as H. auto.
Qed.

End EscapeFacts.

(** * The claims of the specification *)

Section Claims.
Import JsString Js Subtitles Pipeline Samples.

(** ** Subtitle builder *)

(** C2, as the specification states it, fails on three lines and two
    seconds: the second cue is empty and the third starts after its own end,
    beyond the duration and away from the end of the second. *)
Lemma cues_crowded_script_ill_formed :
  script_lines crowded_script <> [] /\ 0 < 2 /\
  cues crowded_script 2 = [Cue 1 0 2 "a"; Cue 2 2 2 "b"; Cue 3 4 2 "c"] /\
  ~ well_formed 2 (cues crowded_script 2).
Proof.
  assert (Hc : cues crowded_script 2
               = [Cue 1 0 2 "a"; Cue 2 2 2 "b"; Cue 3 4 2 "c"]) by reflexivity.
  split; [discriminate|]. split; [lia|]. split; [exact Hc|].
  rewrite Hc. intros [_ HF].
  inversion HF as [|? ? _ HF']; subst.
  inversion HF' as [|? ? Hb _]; subst.
  unfold in_bounds in Hb. cbn [cue_start cue_end] in Hb. lia.
Qed.

(** C2 (amended).  For every script with n >= 1 non-empty trimmed lines and
    every duration > 0, the track has n cues carrying these lines, every cue
    starts at or after 0 and ends at or before the duration, and the cues are
    contiguous with start < end exactly when the last cue starts before the
    duration, that is when max(2, floor(duration / n)) * (n - 1) < duration. *)
Theorem cues_track_invariant (script : string) (dur : Z) :
  script_lines script <> [] -> 0 < dur ->
  let n := List.length (script_lines script) in
  List.length (cues script dur) = n /\
  map cue_text (cues script dur) = script_lines script /\
  Forall (fun c => 0 <= cue_start c /\ cue_end c <= dur) (cues script dur) /\
  (per_line dur n * (Z.of_nat n - 1) < dur <-> well_formed dur (cues script dur)).
Proof.
  intros Hne Hd n. unfold cues. fold n.
  pose proof (per_line_min dur n) as Hp.
  split; [apply cues_from_length|].
  split; [apply cues_from_text|].
  split; [apply cues_from_range; lia|].
  split.
  - intros H. apply cues_from_well_formed; [lia | lia |].
    fold n. replace (0 + Z.of_nat n - 1) with (Z.of_nat n - 1) by lia.
    rewrite Z.mul_comm. exact H.
  - intros [_ HF].
    destruct (Z_lt_ge_dec (per_line dur n * (Z.of_nat n - 1)) dur) as [Hlt|Hge];
      [exact Hlt | exfalso].
    apply (cues_from_ill_formed 0 (per_line dur n) dur (script_lines script) Hne);
      [|exact HF].
    fold n. replace (0 + Z.of_nat n - 1) with (Z.of_nat n - 1) by lia.
    rewrite Z.mul_comm. lia.
Qed.

Lemma cues_track_invariant_witness :
  List.length (cues hello_script 10) = 2%nat /\
  well_formed 10 (cues hello_script 10).
Proof.
  destruct (cues_track_invariant hello_script 10) as (Hn & _ & _ & Hw).
  - vm_compute. discriminate.
  - lia.
  - split; [exact Hn|]. apply Hw. vm_compute. reflexivity.
Defined.

(** C5, as the specification states it, fails on the empty script: the
    builder returns the empty text and raises nothing. *)
Lemma buildSRT_empty_script_returns :
  script_lines "" = [] /\ 0 < 10 /\
  run_buildSRT "" 10 = Returned "" /\
  run_buildSRT "" 10 <> Raised EmptyScript.
Proof. repeat split; try reflexivity; discriminate. Qed.

(** C5 (amended).  For every script whose split-and-trim yields zero
    non-empty lines and every duration > 0, the subtitle builder returns the
    empty subtitle text, a track with no cue; it does not fail. *)
Theorem buildSRT_no_lines (script : string) (dur : Z) :
  script_lines script = [] -> 0 < dur ->
  run_buildSRT script dur = Returned "" /\
  cues script dur = [] /\
  run_buildSRT script dur <> Raised EmptyScript.
Proof.
  intros Hl _. unfold run_buildSRT, buildSRT, cues. rewrite Hl.
  repeat split; discriminate.
Qed.

Lemma buildSRT_no_lines_witness :
  run_buildSRT ("  " ++ nl ++ nl) 10 = Returned "".
Proof.
  apply (buildSRT_no_lines ("  " ++ nl ++ nl) 10); [reflexivity | lia].
Defined.

(** C8.  For the script "Hello world." / "This is a test." and duration 10
    the builder produces exactly two cues, from 0 to 5 and from 5 to 10. *)
Theorem buildSRT_hello_world :
  cues hello_script 10
  = [Cue 1 0 5 "Hello world."; Cue 2 5 10 "This is a test."] /\
  buildSRT hello_script 10
  = "1" ++ nl ++ "00:00:00,000 --> 00:00:05,000" ++ nl ++ "Hello world." ++ nl ++ nl
    ++ "2" ++ nl ++ "00:00:05,000 --> 00:00:10,000" ++ nl ++ "This is a test." ++ nl ++ nl.
Proof. split; vm_compute; reflexivity. Qed.

(** C9, as the specification states it, fails once an offset reaches 100
    hours: one line and a duration of 360000 seconds give a cue that ends at
    the stamp 100:00:00,000, whose hours the format HH:MM:SS,mmm does not
    hold, and the text is not read back. *)
Lemma parseSRT_hundred_hours :
  script_lines "a" <> [] /\ 0 < 360000 /\
  cues "a" 360000 = [Cue 1 0 360000 "a"] /\
  fmt 360000 = "100:00:00,000" /\
  parseSRT (buildSRT "a" 360000) = None.
Proof. repeat split; try (vm_compute; reflexivity); discriminate. Qed.

(** C9 (amended).  For every script with a non-empty line and every whole
    duration > 0 whose cues all start and end before 100 hours, reading the
    generated subtitle text back in the format of the specification (blocks
    numbered from 1, stamps HH:MM:SS,mmm of two, two, two and three digits)
    recovers the number, the start and end offsets and the text line of
    every cue the builder computed, and the millisecond field of every time
    stamp is 000. *)
Theorem parseSRT_buildSRT (script : string) (dur : Z) :
  script_lines script <> [] -> 0 < dur ->
  Forall below_100h (cues script dur) ->
  parseSRT (buildSRT script dur) = Some (map in_ms (cues script dur)) /\
  Forall (fun c => exists a b, fmt (cue_start c) = a ++ ",000" /\
                               fmt (cue_end c) = b ++ ",000")
         (cues script dur).
Proof.
  intros _ Hd Hb. split.
  - rewrite buildSRT_render. unfold parseSRT, cues in *.
    change 1 with (0 + 1). apply parse_render; [|exact Hb].
    apply cues_from_readable; try lia.
    + pose proof (per_line_min dur (List.length (script_lines script))). lia.
    + apply script_lines_no_LF.
  - apply Forall_forall. intros c _.
    destruct (fmt_millis (cue_start c)) as [a Ha].
    destruct (fmt_millis (cue_end c)) as [b Hb'].
    now exists a, b.
Qed.

Lemma parseSRT_buildSRT_witness :
  parseSRT (buildSRT hello_script 10)
  = Some (map in_ms (cues hello_script 10)).
Proof.
  apply (parseSRT_buildSRT hello_script 10);
    [vm_compute; discriminate | lia | ].
  repeat constructor.
Defined.

(** ** Asset resolver *)

(** C4 (code_bug).  When the footage search finds nothing, the resolver of
    the earlier variant returns [null], where [getBg] of [server.js], on the
    same response, returns the fallback URL. *)
Theorem fetchPexelsVideo_no_footage_null :
  search linux_env [("query", VStr "nature"); ("per_page", VNum 1);
                    ("orientation", VStr "landscape")] = Ok no_footage /\
  fetchPexelsVideo linux_env (VStr "nature") = Ok VNull /\
  getBg linux_env (VStr "nature") = Ok (VStr FALLBACK).
Proof. repeat split. Qed.

(** ** Job pipeline *)

(** C1, as the specification states it, fails on the body [{}]: writing the
    subtitle file raises a type error before [style] is evaluated, and the
    message of the response is that of the type error. *)
Lemma generate_video_empty_body_type_error :
  let dir := workspace linux_env in
  let body := job_body ServerJs linux_env (module_scope ServerJs ++ node_scope)%list
                empty_request (uuid linux_env) dir (ensureDir dir empty_world) in
  fst body = Throw (TypeError data_type_message) /\
  (forall m, fst body <> Throw (ReferenceError m)) /\
  sent (res (snd (generate_video ServerJs linux_env empty_request empty_world)))
  = Some (Json [("error", VStr data_type_message)]).
Proof.
  cbv zeta. split; [reflexivity|]. split; [|reflexivity].
  intros m. vm_compute. discriminate.
Qed.

(** C1 (amended).  For every request to POST /generate-video, whatever the
    body and the services, the [try] block raises before the background
    footage is looked up: a reference error on the undefined identifier
    [style] when the [srt] field is a string, a type error from the subtitle
    write otherwise.  The job so always reaches the catch branch: the
    workspace is removed and, when no header has been sent, a status-500 JSON
    error with a message field is returned; the engine is not run, no
    removal is scheduled and no video is streamed. *)
Theorem generate_video_always_fails (v : variant) (E : env) (r : request) (w : world) :
  headersSent (res w) = false ->
  let dir := workspace E in
  let e := if is_string (srt r)
           then ReferenceError "style is not defined"
           else TypeError data_type_message in
  let out := generate_video v E r w in
  (exists w1, job_body v E (module_scope v ++ node_scope)%list r (uuid E) dir
                (ensureDir dir w) = (Throw e, w1)) /\
  fst out = Ok tt /\
  ~ In dir (dirs (snd out)) /\
  res (snd out) = Response 500 (Some "application/json")
                    (Some (Json [("error", VStr (message e))])) true /\
  runs (snd out) = runs w /\ timers (snd out) = timers w /\
  (forall E', dirname E' = dirname E -> uuid E' = uuid E ->
              generate_video v E' r w = out).
Proof.
  intros Hh dir e out.
  destruct (job_body_raises v E r (ensureDir dir w)) as (w1 & Hb & _ & Ht & Hr & Hs).
  fold dir e in Hb.
  destruct (job_catch_spec v dir e w1) as (w2 & Hc & Hd & Ht2 & Hr2 & Hres).
  assert (Hout : out = (Ok tt, w2)).
  { unfold out, generate_video, generate_video_in.
    change (join (join (dirname E) "temp") (uuid E)) with dir.
    cbv zeta. unfold mbind at 1. cbn [act]. unfold mtry.
    rewrite Hb. exact Hc. }
  split; [now exists w1|].
  rewrite Hout. cbn [fst snd].
  split; [reflexivity|]. split; [exact Hd|].
  split; [apply Hres; rewrite Hs; exact Hh|].
  split; [now rewrite Hr2, Hr|].
  split; [now rewrite Ht2, Ht|].
  intros E' H1 H2. rewrite <- Hout. now apply generate_video_services.
Qed.

Lemma generate_video_always_fails_witness :
  res (snd (generate_video ServerJs linux_env short_request empty_world))
  = Response 500 (Some "application/json")
      (Some (Json [("error", VStr "style is not defined")])) true.
Proof.
  destruct (generate_video_always_fails ServerJs linux_env short_request empty_world)
    as (_ & _ & _ & H & _); [reflexivity | exact H].
Defined.

(** C3.  For every job started by POST /generate-video the workspace
    directory is gone when the handler has returned, so a workspace on disk
    implies a job in flight.  Path by path, in whatever scope the handler is
    defined: when a stage of the [try] block fails the workspace is removed at
    once; when the block succeeds and the response sink completes, the
    removal is pending and the workspace is gone once the timer has fired. *)
Theorem workspace_released (v : variant) (E : env) (r : request) (w : world) :
  let dir := workspace E in
  let out := snd (generate_video v E r w) in
  ~ In dir (dirs out) /\
  (In dir (dirs out) -> in_flight dir out) /\
  ~ In dir (dirs (fire_timers out)) /\
  forall outer : scope,
    let body := job_body v E outer r (uuid E) dir (ensureDir dir w) in
    let out' := snd (generate_video_in outer v E r w) in
    (forall e w1, body = (Throw e, w1) -> ~ In dir (dirs out')) /\
    (forall w1, body = (Ok tt, w1) -> sink E = Completed ->
       in_flight dir out' /\ ~ In dir (dirs (fire_timers out'))).
Proof.
  intros dir out.
  assert (Hpaths : forall outer,
    let body := job_body v E outer r (uuid E) dir (ensureDir dir w) in
    let out' := snd (generate_video_in outer v E r w) in
    (forall e w1, body = (Throw e, w1) -> ~ In dir (dirs out')) /\
    (forall w1, body = (Ok tt, w1) -> sink E = Completed ->
       in_flight dir out' /\ ~ In dir (dirs (fire_timers out')))).
  { intros outer body out'.
    assert (Hrun : generate_video_in outer v E r w
                   = mtry (fun w0 => job_body v E outer r (uuid E) dir w0)
                          (job_catch v dir) (ensureDir dir w)) by reflexivity.
    split.
    - intros e w1 Hb. unfold out'. rewrite Hrun. unfold mtry.
      fold body. rewrite Hb.
      destruct (job_catch_spec v dir e w1) as (w2 & -> & Hd & _). exact Hd.
    - intros w1 Hb Hsink. unfold out'. rewrite Hrun. unfold mtry.
      fold body. rewrite Hb. cbn [snd].
      destruct (job_body_done _ _ _ _ _ _ Hb) as (_ & _ & Ht).
      rewrite Hsink in Ht.
      assert (Hin : in_flight dir w1) by (unfold in_flight; rewrite Ht; now left).
      split; [exact Hin | now apply fire_timers_absent]. }
  assert (Hgone : ~ In dir (dirs out)).
  { destruct (job_body_raises v E r (ensureDir dir w)) as (w1 & Hb & _).
    destruct (Hpaths (module_scope v ++ node_scope)%list) as [Hfail _].
    exact (Hfail _ _ Hb). }
  split; [exact Hgone|]. split; [intros H; contradiction|].
  split; [|exact Hpaths].
  intros H. apply Hgone. now apply fire_timers_subset in H.
Qed.

Lemma workspace_released_witness :
  ~ In (workspace linux_env)
       (dirs (snd (generate_video EarlierVariant linux_env short_request empty_world))) /\
  in_flight (workspace linux_env)
       (snd (generate_video_in styled_scope EarlierVariant linux_env short_request
               empty_world)) /\
  ~ In (workspace linux_env)
       (dirs (fire_timers
          (snd (generate_video_in styled_scope EarlierVariant linux_env short_request
                  empty_world)))).
Proof.
  destruct (workspace_released EarlierVariant linux_env short_request empty_world)
    as (H1 & _ & _ & H4).
  split; [exact H1|].
  destruct (H4 styled_scope) as [_ H5].
  eapply H5; [vm_compute; reflexivity | reflexivity].
Defined.

(** C6 (code_bug).  Where no speech utility exists the narration of the
    earlier variant leaves a line of text in the narration file, whatever
    the script, the voice hint and the duration: not a silent waveform, and
    nothing sized to the duration.  The step of [server.js] does write zero
    bytes, yet raises a range error for a negative size and for one beyond
    what the platform allocates. *)
Theorem narration_not_always_silence :
  generateTTS linux_env (VStr "Hello") (VStr "Female")
    "/srv/app/temp/job-1/voice.aiff" empty_world
  = (Ok tt, put_file "/srv/app/temp/job-1/voice.aiff"
              (Text (placeholder_text ++ nl)) empty_world) /\
  (forall n, Text (placeholder_text ++ nl) <> Bytes (repeat Byte.x00 n)) /\
  fst (write_silence linux_env (-1) "/srv/app/temp/job-1/tts.wav" empty_world)
  = Throw (RangeError "The value of size is out of range.") /\
  fst (write_silence linux_env 1000000 "/srv/app/temp/job-1/tts.wav" empty_world)
  = Throw (RangeError "The value of size is out of range.").
Proof. repeat split; try reflexivity. discriminate. Qed.

(** C7.  For every subtitle file path, the filter argument of the
    burn-subtitles stage holds the path with every colon replaced by a
    backslash and a colon and every other character unchanged: one backslash
    is added per colon, and undoing the escape gives the path back. *)
Theorem subtitles_filter_escapes_colons (v : variant) (path : string) :
  subtitles_filter v path
  = "subtitles=" ++ concat (map escape_char (list_ascii_of_string path))
    ++ ":force_style='" ++ force_style v ++ "'" /\
  unescape_colons (escape_colons path) = path /\
  occurrences ":" (escape_colons path) = occurrences ":" path /\
  occurrences "\" (escape_colons path)
  = (occurrences "\" path + occurrences ":" path)%nat /\
  String.length (escape_colons path)
  = (String.length path + occurrences ":" path)%nat /\
  forall p : paths,
    cmd_filters (burn_command v p) = [subtitles_filter v (p_srt p)].
Proof.
  split; [unfold subtitles_filter; now rewrite escape_colons_chars|].
  split; [apply unescape_escape|].
  split; [apply escape_colons_colons|].
  split; [apply escape_colons_backslashes|].
  split; [apply escape_colons_length | reflexivity].
Qed.

(** C10.  In every job the audio-mux stage reads its video from the file it
    writes: the output path of the command is its input path, the file the
    trim stage wrote and the burn stage reads, and no other file of the job.
    These are the commands the handler has the engine run. *)
Theorem mux_overwrites_input (v : variant) (dir : string) (d : Z) :
  let p := job_paths v dir in
  cmd_output (mux_command p) = cmd_input (mux_command p) /\
  cmd_input (mux_command p) = cmd_output (trim_command p d) /\
  cmd_input (burn_command v p) = cmd_output (mux_command p) /\
  cmd_output (mux_command p) <> p_final p /\
  cmd_output (mux_command p) <> p_bg p /\
  cmd_output (mux_command p) <> p_tts p /\
  forall (outer : scope) (E : env) (r : request) (w : world),
    exists k,
      runs (snd (generate_video_in outer v E r w))
      = (skipn k (job_commands v (workspace E) (duration_of r)) ++ runs w)%list.
Proof.
  cbv zeta. repeat split; try (destruct v; reflexivity).
  1-3: destruct v; cbn; unfold join; intros H;
       apply append_inj_r in H; discriminate.
  intros outer E r w.
  assert (Hrun : generate_video_in outer v E r w
                 = mtry (fun w0 => job_body v E outer r (uuid E) (workspace E) w0)
                        (job_catch v (workspace E))
                        (ensureDir (workspace E) w)) by reflexivity.
  rewrite Hrun. unfold mtry.
  destruct (job_body v E outer r (uuid E) (workspace E) (ensureDir (workspace E) w))
    as [[[]|e] w1] eqn:Hb;
    destruct (job_body_runs _ _ _ _ _ _ _ Hb) as [k Hk]; exists k.
  - exact Hk.
  - destruct (job_catch_spec v (workspace E) e w1) as (w2 & -> & _ & _ & Hr & _).
    cbn [snd]. now rewrite Hr, Hk.
Qed.

End Claims.

(** ** More on lines, cues and time stamps *)

Section LineFacts.
Import JsString Js Subtitles Pipeline Coverage.

Lemma split_nonempty (sep : ascii) (s : string) : split sep s <> [].
Proof.
  induction s as [|c s IH]; cbn [split]; [discriminate|].
  destruct (Ascii.eqb c sep); [discriminate|].
  destruct (split sep s); discriminate.
Qed.

(** Splitting distributes over a separator, wherever it stands. *)
Lemma split_at_sep (sep : ascii) (a b : string) :
  split sep (a ++ String sep b) = (split sep a ++ split sep b)%list.
Proof.
  induction a as [|c a IH].
  - apply split_cons_sep.
  - cbn [append split]. rewrite IH.
    destruct (Ascii.eqb c sep); [reflexivity|].
    pose proof (split_nonempty sep a) as Hne.
    destruct (split sep a) as [|h t]; [congruence | reflexivity].
Qed.

Lemma script_lines_at_LF (a b : string) :
  script_lines (a ++ String LF b) = (script_lines a ++ script_lines b)%list.
Proof.
  unfold script_lines. now rewrite split_at_sep, map_app, filter_app.
Qed.

Lemma trimStart_all_space (s : string) : all_space s = true -> trimStart s = "".
Proof.
  induction s as [|c s IH]; cbn; [reflexivity|].
  intros H. apply andb_true_iff in H as [Hc Hs]. rewrite Hc. auto.
Qed.

Lemma trim_all_space (s : string) : all_space s = true -> trim s = "".
Proof. intros H. unfold trim. now rewrite trimStart_all_space. Qed.

Lemma trimStart_first (s : string) :
  trimStart s = "" \/ not_space (first_char (trimStart s)).
Proof.
  induction s as [|c s IH]; cbn [trimStart]; [now left|].
  destruct (is_space c) eqn:E; [exact IH|].
  right. exists c. now split.
Qed.

Lemma trimEnd_first (c : ascii) (r : string) :
  is_space c = false -> first_char (trimEnd (String c r)) = Some c.
Proof.
  intros H. cbn [trimEnd]. destruct (trimEnd r); [now rewrite H | reflexivity].
Qed.

Lemma trimEnd_last (s : string) :
  trimEnd s = "" \/ not_space (last_char (trimEnd s)).
Proof.
  induction s as [|c s IH]; cbn [trimEnd]; [now left|].
  destruct (trimEnd s) as [|d r] eqn:E.
  - destruct (is_space c) eqn:Ec; [now left|].
    right. exists c. now split.
  - right. destruct IH as [IH|(x & Hx & Hs)]; [discriminate|].
    exists x. split; [|exact Hs].
    cbn [last_char] in *. now rewrite Hx.
Qed.

(** A trimmed string is empty or has a character that is no white space at
    each end. *)
Lemma trim_ends (s : string) :
  trim s = "" \/ (not_space (first_char (trim s)) /\ not_space (last_char (trim s))).
Proof.
  unfold trim. destruct (trimEnd_last (trimStart s)) as [H|H]; [now left|].
  right. split; [|exact H].
  destruct (trimStart_first s) as [H0|(c & Hc & Hs)].
  - rewrite H0 in H. destruct H as (x & Hx & _). discriminate.
  - destruct (trimStart s) as [|c' r]; [discriminate|].
    cbn in Hc. injection Hc as ->.
    exists c. split; [now apply trimEnd_first | exact Hs].
Qed.

Lemma script_lines_clean (script : string) :
  Forall clean_line (script_lines script).
Proof.
  pose proof (script_lines_no_LF script) as HLF.
  rewrite Forall_forall in HLF. apply Forall_forall. intros l Hl.
  unfold clean_line. split; [|split; [now apply HLF|]].
  - unfold script_lines in Hl. apply filter_In in Hl as [_ Hl].
    unfold JsString.truthy in Hl. intros ->. discriminate.
  - unfold script_lines in Hl. apply filter_In in Hl as [Hin Ht].
    apply in_map_iff in Hin as (x & <- & _).
    destruct (trim_ends x) as [He|He]; [|exact He].
    rewrite He in Ht. discriminate.
Qed.

(** *** Cues in closed form *)

Lemma cues_from_nth (per dur : Z) (lines : list string) (i : Z) (k : nat) (l : string) :
  nth_error lines k = Some l ->
  nth_error (cues_from i per dur lines) k
  = Some (Cue (i + Z.of_nat k + 1) ((i + Z.of_nat k) * per)
              (Z.min ((i + Z.of_nat k) * per + per) dur) l).
Proof.
  revert i k. induction lines as [|x r IH]; intros i k H.
  - destruct k; discriminate.
  - destruct k as [|k]; cbn [nth_error cues_from] in *.
    + injection H as ->. now rewrite Z.add_0_r.
    + rewrite (IH (i + 1) k H). do 3 f_equal; lia.
Qed.

Lemma cues_from_even (per dur : Z) (lines : list string) (i : Z) :
  0 <= i -> 0 <= per ->
  (i + Z.of_nat (List.length lines)) * per <= dur ->
  Forall (fun c => cue_end c = cue_start c + per) (cues_from i per dur lines).
Proof.
  revert i. induction lines as [|x r IH]; intros i Hi Hp H; cbn [cues_from].
  - constructor.
  - cbn [List.length] in H. rewrite Nat2Z.inj_succ in H.
    constructor.
    + cbn [cue_start cue_end]. nia.
    + apply IH; [lia | lia |].
      replace (i + 1 + Z.of_nat (List.length r))
        with (i + Z.succ (Z.of_nat (List.length r))) by lia. exact H.
Qed.

(** *** Time stamps *)

Lemma fmt_injective (a b : Z) : 0 <= a -> 0 <= b -> fmt a = fmt b -> a = b.
Proof.
  intros Ha Hb H.
  pose proof (stamp_value_fmt a Ha) as Pa. rewrite H, (stamp_value_fmt b Hb) in Pa.
  assert (Hm : 1000 * b = 1000 * a) by congruence. lia.
Qed.

Lemma occurrences_absent (c : ascii) (s : string) :
  mem c s = false -> occurrences c s = 0%nat.
Proof.
  induction s as [|x s IH]; cbn; [reflexivity|].
  intros H. apply orb_false_iff in H as [Hx Hs]. rewrite Hx, IH; auto.
Qed.

Lemma render_line_breaks (c : cue) :
  readable c -> occurrences LF (render c) = 4%nat.
Proof.
  intros (Hi & Hs & He & Ht). unfold render.
  rewrite !occurrences_append.
  rewrite (occurrences_absent LF (of_int (cue_index c)))
    by (apply all_digits_mem; [reflexivity | now apply of_int_digits]).
  rewrite !(occurrences_absent LF (fmt _))
    by (apply fmt_mem; [reflexivity | reflexivity | assumption]).
  rewrite (occurrences_absent LF (cue_text c)) by exact Ht.
  reflexivity.
Qed.

Lemma concat_render_line_breaks (cs : list cue) :
  Forall readable cs ->
  occurrences LF (concat (map render cs)) = (4 * List.length cs)%nat.
Proof.
  induction 1 as [|c cs Hc _ IH]; [reflexivity|].
  cbn [map concat List.length]. rewrite occurrences_append, IH, render_line_breaks by exact Hc.
  lia.
Qed.

End LineFacts.

(** ** More on the resolvers, the pipeline and the script route *)

Section MoreResolverFacts.
Import JsString Js Pipeline Coverage.

(** The link of the first file of the first video, when the response has
    one. *)
Lemma first_link_found (r data video file : list (string * value))
    (videos files : list value) (link : value) :
  lookup "data" r = Some (VObj data) ->
  lookup "videos" data = Some (VArr (VObj video :: videos)) ->
  lookup "video_files" video = Some (VArr (VObj file :: files)) ->
  lookup "link" file = Some link ->
  first_link (VObj r) = Ok link.
Proof.
  intros H1 H2 H3 H4. unfold first_link. cbn [get bind]. rewrite H1.
  cbn [get bind]. rewrite H2. cbn [get0 bind hd nullish get]. rewrite H3.
  cbn [get0 bind hd nullish get]. now rewrite H4.
Qed.

(** A first video without the field [video_files]: the index [[0]] is taken
    of [undefined], which [?.] does not guard. *)
Lemma first_link_no_files (r data video : list (string * value)) (videos : list value) :
  lookup "data" r = Some (VObj data) ->
  lookup "videos" data = Some (VArr (VObj video :: videos)) ->
  lookup "video_files" video = None ->
  exists m, first_link (VObj r) = Throw (TypeError m).
Proof.
  intros H1 H2 H3. unfold first_link. cbn [get bind]. rewrite H1.
  cbn [get bind]. rewrite H2. cbn [get0 bind hd nullish get]. rewrite H3.
  cbn [get0 bind]. eauto.
Qed.

End MoreResolverFacts.

Section MorePipelineFacts.
Import JsString Js Subtitles Pipeline ScriptRoute Coverage.

Ltac unfold_M :=
  cbv [mbind act lift ret read throw mtry run_engine writeFile write_silence
       generateTTS];
  cbv beta iota.

Ltac split_steps H :=
  repeat match type of H with
  | context [match ?x with Ok _ => _ | Throw _ => _ end] => destruct x eqn:?
  | context [match ?x with Completed => _ | Aborted => _ end] => destruct x eqn:?
  | context [match ?x with ServerJs => _ | EarlierVariant => _ end] => destruct x eqn:?
  | context [let (_, _) := ?x in _] => destruct x eqn:?
  end; cbv beta iota in H.

Ltac show_world :=
  cbn [files dirs runs timers logged res put_file add_run set_res add_timer add_log
       job_paths p_bg p_tts p_srt p_vid p_final cmd_output trim_command mux_command
       burn_command status content_type sent headersSent map fst].

Lemma prefix_append (a b : string) : String.prefix a (a ++ b) = true.
Proof.
  induction a as [|c a IH]; cbn.
  - now destruct b.
  - destruct (ascii_dec c c); [exact IH | congruence].
Qed.

Lemma under_join (dir name : string) (c : content) : under dir (join dir name, c) = true.
Proof.
  unfold under, join. cbn [fst]. rewrite <- append_assoc. apply prefix_append.
Qed.

Lemma outside_put_file (dir name : string) (c : content) (w : world) :
  outside dir (put_file (join dir name) c w) = outside dir w.
Proof. unfold outside. cbn [put_file files filter]. now rewrite under_join. Qed.

Lemma outside_remove (dir : string) (w : world) :
  files (remove dir w) = outside dir w.
Proof. reflexivity. Qed.


(** The [try] block touches no directory and no file outside the workspace,
    and leaves the pending removals of other jobs alone. *)
Lemma job_body_frame (outer : scope) (v : variant) (E : env) (r : request)
    (job dir : string) (w w1 : world) (out : result unit) :
  job_body v E outer r job dir w = (out, w1) ->
  dirs w1 = dirs w /\ outside dir w1 = outside dir w /\
  (timers w1 = timers w \/ timers w1 = dir :: timers w).
Proof.
  unfold job_body. unfold_M. intros H. split_steps H.
  all: injection H as <- <-; unfold outside; show_world.
  all: cbn [filter]; rewrite ?under_join; cbn [negb filter]; rewrite ?under_join;
       cbn [negb]; auto.
Qed.

(** When the [try] block raises, the response is as it was. *)
Lemma job_body_throw (outer : scope) (v : variant) (E : env) (r : request)
    (job dir : string) (w w1 : world) (e : error) :
  job_body v E outer r job dir w = (Throw e, w1) ->
  res w1 = res w /\ timers w1 = timers w.
Proof.
  unfold job_body. unfold_M. intros H. split_steps H.
  all: try discriminate.
  all: injection H as <- <-; show_world; auto.
Qed.


(** The [catch] block in full. *)
Lemma job_catch_world (v : variant) (dir : string) (e : error) (w : world) :
  headersSent (res w) = false ->
  job_catch v dir e w
  = (Ok tt,
     World (filter (fun d => negb (beneath dir d)) (dirs w)) (outside dir w)
           (timers w) (runs w)
           (((match v with
              | ServerJs => "Video error: "
              | EarlierVariant => "Video failed: "
              end) ++ message e) :: logged w)
           (Response 500 (Some "application/json") (Some (json_error e)) true)).
Proof.
  intros H. unfold job_catch. unfold_M. cbn [res headersSent remove add_log].
  rewrite H. reflexivity.
Qed.

Lemma job_catch_disk (v : variant) (dir : string) (e : error) (w : world) :
  dirs (snd (job_catch v dir e w))
  = filter (fun d => negb (beneath dir d)) (dirs w) /\
  files (snd (job_catch v dir e w)) = outside dir w /\
  timers (snd (job_catch v dir e w)) = timers w.
Proof.
  unfold job_catch. unfold_M. cbn [res headersSent remove add_log].
  destruct (headersSent (res w)); cbn [snd set_res dirs files timers]; auto.
Qed.

Lemma generate_video_in_unfold (outer : scope) (v : variant) (E : env) (r : request)
    (w : world) :
  generate_video_in outer v E r w
  = match job_body v E outer r (uuid E) (workspace E) (ensureDir (workspace E) w) with
    | (Ok a, w1) => (Ok a, w1)
    | (Throw e, w1) => job_catch v (workspace E) e w1
    end.
Proof. reflexivity. Qed.




Lemma fold_remove_files (d : string) (l : list string) (w : world) :
  In d l -> forall f, In f (files (fold_right remove w l)) -> under d f = false.
Proof.
  induction l as [|x l IH]; intros H f Hf; [contradiction|].
  cbn [fold_right] in Hf. rewrite outside_remove in Hf. unfold outside in Hf.
  apply filter_In in Hf as [Hf Hu].
  destruct H as [->|H]; [now apply negb_true_iff in Hu | eauto].
Qed.

(** *** Quoting the text of the speech command *)

Lemma replace_all_absent (c : ascii) (r s : string) :
  mem c s = false -> replace_all c r s = s.
Proof.
  induction s as [|x s IH]; cbn [mem replace_all]; [reflexivity|].
  intros H. apply orb_false_iff in H as [Hx Hs]. rewrite Hx. now rewrite IH.
Qed.

Lemma replace_all_escape (c : ascii) (s : string) :
  c <> "\"%char ->
  let quoted := replace_all c (String "\" (String c EmptyString)) s in
  occurrences c quoted = occurrences c s /\
  occurrences "\" quoted = (occurrences "\" s + occurrences c s)%nat /\
  String.length quoted = (String.length s + occurrences c s)%nat.
Proof.
  intros Hc. cbv zeta. induction s as [|x s (IH1 & IH2 & IH3)]; [now cbn|].
  cbn [replace_all]. destruct (Ascii.eqb_spec x c) as [->|Hx].
  - cbn [append occurrences String.length]. rewrite IH1, IH2, IH3.
    rewrite !Ascii.eqb_refl.
    replace (Ascii.eqb "\" c) with false
      by (symmetry; apply Ascii.eqb_neq; congruence).
    replace (Ascii.eqb c "\") with false by (symmetry; now apply Ascii.eqb_neq).
    repeat split; lia.
  - cbn [occurrences String.length]. rewrite IH1, IH2, IH3.
    apply Ascii.eqb_neq in Hx. rewrite Hx. repeat split; lia.
Qed.

(** *** The script route *)

Lemma generate_script_unfold (v : variant) (complete : chat_request -> result value)
    (r : script_request) (w : world) :
  generate_script v complete r w
  = match bind (complete (chat_request_of v r)) completion_text with
    | Ok script =>
        (Ok tt, set_res (Response (status (res w)) (Some "application/json")
                           (Some (script_body script (s_duration_of r))) true) w)
    | Throw e =>
        (Ok tt, set_res (Response 500 (Some "application/json") (Some (json_error e)) true)
                  (add_log ("Script error: " ++ message e) w))
    end.
Proof.
  unfold generate_script. unfold_M.
  destruct (complete (chat_request_of v r)) as [c|e]; cbn [bind]; [|reflexivity].
  destruct (completion_text c); reflexivity.
Qed.

Lemma completion_text_content (c choice msg : list (string * value))
    (choices : list value) (content : string) :
  lookup "choices" c = Some (VArr (VObj choice :: choices)) ->
  lookup "message" choice = Some (VObj msg) ->
  lookup "content" msg = Some (VStr content) ->
  completion_text (VObj c) = Ok (trim content).
Proof.
  intros H1 H2 H3. unfold completion_text. cbn [get bind]. rewrite H1.
  cbn [get0 hd bind get]. rewrite H2. cbn [bind get]. now rewrite H3.
Qed.

End MorePipelineFacts.

(** * Further properties of the code *)

Section SubtitleProperties.
Import JsString Js Subtitles Pipeline ScriptRoute Coverage Samples.

(** X1.  The lines of a script are found line break by line break: the lines
    of two texts joined by a line break are the lines of the first followed
    by those of the second.  Hence a line break (or a blank line) added at
    either end of a script changes neither the cues nor the subtitle text. *)
Theorem script_lines_concat (a b : string) (dur : Z) :
  script_lines (a ++ nl ++ b) = (script_lines a ++ script_lines b)%list /\
  buildSRT (a ++ nl) dur = buildSRT a dur /\
  buildSRT (nl ++ a) dur = buildSRT a dur /\
  buildSRT (a ++ nl ++ "   " ++ nl) dur = buildSRT a dur.
Proof.
  assert (H : forall x y, script_lines (x ++ nl ++ y)
                          = (script_lines x ++ script_lines y)%list).
  { intros x y. rewrite nl_append. apply script_lines_at_LF. }
  split; [apply H|].
  assert (Hb : forall x y, script_lines x = script_lines y ->
                           buildSRT x dur = buildSRT y dur).
  { intros x y E. unfold buildSRT. now rewrite E. }
  split; [|split]; apply Hb.
  - change (a ++ nl) with (a ++ nl ++ ""). rewrite H. apply List.app_nil_r.
  - change (nl ++ a) with ("" ++ nl ++ a). now rewrite H.
  - rewrite H. change ("   " ++ nl) with ("   " ++ nl ++ ""). rewrite H.
    apply List.app_nil_r.
Qed.

(** X2.  Every line the builder keeps is non-empty, holds no line break and
    neither begins nor ends with white space. *)
Theorem script_lines_are_clean (script : string) :
  Forall clean_line (script_lines script).
Proof. apply script_lines_clean. Qed.

(** X3.  The cue of the k-th line (counting from 0) has index k + 1, starts
    at k * per and ends at min (k * per + per, duration), per being
    max (2, floor (duration / number of lines)). *)
Theorem cue_closed_form (script : string) (dur : Z) (k : nat) (l : string) :
  nth_error (script_lines script) k = Some l ->
  let per := per_line dur (List.length (script_lines script)) in
  nth_error (cues script dur) k
  = Some (Cue (Z.of_nat k + 1) (Z.of_nat k * per)
              (Z.min (Z.of_nat k * per + per) dur) l).
Proof.
  intros H per. unfold cues. fold per.
  rewrite (cues_from_nth per dur _ 0 k l H). reflexivity.
Qed.

Lemma cue_closed_form_witness :
  nth_error (cues crowded_script 10) 2 = Some (Cue 3 6 9 "c").
Proof.
  apply (cue_closed_form crowded_script 10 2 "c"). reflexivity.
Defined.

(** X4.  When the duration gives every line at least two seconds
    (2 * n <= duration for n >= 1 lines), every cue lasts exactly
    floor (duration / n) seconds and the last cue ends at
    duration - duration mod n: the track reaches the duration only when n
    divides it. *)
Theorem cues_even_spans (script : string) (dur : Z) :
  script_lines script <> [] ->
  let n := List.length (script_lines script) in
  2 * Z.of_nat n <= dur ->
  Forall (fun c => cue_end c = cue_start c + dur / Z.of_nat n) (cues script dur) /\
  forall c, nth_error (cues script dur) (n - 1) = Some c ->
            cue_end c = dur - dur mod Z.of_nat n.
Proof.
  intros Hne n Hd.
  assert (Hn : 0 < Z.of_nat n).
  { unfold n. destruct (script_lines script); [congruence | cbn; lia]. }
  assert (Hq : 2 <= dur / Z.of_nat n).
  { apply Z.div_le_lower_bound; lia. }
  assert (Hper : per_line dur n = dur / Z.of_nat n) by (unfold per_line; lia).
  assert (Hmul : Z.of_nat n * (dur / Z.of_nat n) <= dur).
  { apply Z.mul_div_le. lia. }
  split.
  - unfold cues. fold n. rewrite Hper.
    apply cues_from_even; [lia | lia |]. fold n. lia.
  - intros c Hc.
    destruct (nth_error (script_lines script) (n - 1)) as [l|] eqn:El.
    + pose proof (cues_from_nth (per_line dur n) dur _ 0 _ _ El) as Hk.
      unfold cues in Hc. fold n in Hc. rewrite Hk in Hc. injection Hc as <-.
      cbn [cue_end]. rewrite Hper.
      replace (0 + Z.of_nat (n - 1)) with (Z.of_nat n - 1) by lia.
      pose proof (Z.div_mod dur (Z.of_nat n) ltac:(lia)). nia.
    + apply nth_error_None in El. fold n in El. lia.
Qed.

Lemma cues_even_spans_witness :
  Forall (fun c => cue_end c = cue_start c + 10 / 3) (cues crowded_script 10) /\
  forall c, nth_error (cues crowded_script 10) 2 = Some c -> cue_end c = 10 - 10 mod 3.
Proof.
  apply (cues_even_spans crowded_script 10); [vm_compute; discriminate | vm_compute; discriminate].
Defined.

(** X5.  For an offset below 100 hours the time stamp has exactly 12
    characters, HH:MM:SS,000, whose three fields are the hours, the minutes
    below 60 and the seconds below 60 of the offset. *)
Theorem fmt_fixed_width (sec : Z) :
  0 <= sec < 360000 ->
  String.length (fmt sec) = 12%nat /\
  exists h m s,
    fmt sec = field h ++ ":" ++ field m ++ ":" ++ field s ++ ",000" /\
    0 <= h < 100 /\ 0 <= m < 60 /\ 0 <= s < 60 /\ h * 3600 + m * 60 + s = sec.
Proof.
  intros [H0 H1].
  destruct (fmt_field_bounds sec H0) as (Hh & Hm & Hs & Hsum).
  assert (Bh : sec / 3600 < 100) by (apply Z.div_lt_upper_bound; lia).
  assert (Bm : Z.rem sec 3600 / 60 < 60).
  { rewrite Z.rem_mod_nonneg by lia. apply Z.div_lt_upper_bound; [lia|].
    pose proof (Z.mod_pos_bound sec 3600 ltac:(lia)). lia. }
  assert (Bs : Z.rem sec 60 < 60).
  { rewrite Z.rem_mod_nonneg by lia.
    pose proof (Z.mod_pos_bound sec 60 ltac:(lia)). lia. }
  split.
  - rewrite fmt_fields, !length_append, !field_length by lia. reflexivity.
  - exists (sec / 3600), (Z.rem sec 3600 / 60), (Z.rem sec 60).
    split; [apply fmt_fields|]. repeat split; lia.
Qed.

Lemma fmt_fixed_width_witness : String.length (fmt 3725) = 12%nat.
Proof.
  destruct (fmt_fixed_width 3725) as [H _]; [lia | exact H].
Defined.

(** X6.  Distinct non-negative offsets have distinct time stamps. *)
Theorem fmt_distinct (a b : Z) :
  0 <= a -> 0 <= b -> a <> b -> fmt a <> fmt b.
Proof.
  intros Ha Hb Hne H. apply Hne. now apply fmt_injective.
Qed.

Lemma fmt_distinct_witness : fmt 59 <> fmt 60.
Proof. apply (fmt_distinct 59 60); lia. Defined.

(** X7.  For a duration >= 0 the subtitle text has exactly four line breaks
    per kept line: an index line, a time line, a text line and an empty
    line for each cue. *)
Theorem buildSRT_line_breaks (script : string) (dur : Z) :
  0 <= dur ->
  occurrences LF (buildSRT script dur)
  = (4 * List.length (script_lines script))%nat.
Proof.
  intros Hd. rewrite buildSRT_render, concat_render_line_breaks.
  - unfold cues. now rewrite cues_from_length.
  - unfold cues. apply cues_from_readable; try lia.
    + pose proof (per_line_min dur (List.length (script_lines script))). lia.
    + apply script_lines_no_LF.
Qed.

Lemma buildSRT_line_breaks_witness :
  occurrences LF (buildSRT hello_script 10)
  = (4 * List.length (script_lines hello_script))%nat.
Proof. apply (buildSRT_line_breaks hello_script 10). lia. Defined.

End SubtitleProperties.

Section ResolverProperties.
Import JsString Js Subtitles Pipeline ScriptRoute Coverage Samples.

(** X8.  [getBg] never raises, whatever the style and the search service do:
    it returns a truthy value, which is the fallback URL or the link found
    in the answer of the search. *)
Theorem getBg_always_usable (E : env) (style : value) :
  exists url, getBg E style = Ok url /\ truthy url = true /\
    (url = VStr FALLBACK \/
     exists q r, search E [("query", VStr q); ("per_page", VNum 1)] = Ok r /\
                 first_link r = Ok url).
Proof. apply getBg_total. Qed.

(** X9.  [fetchPexelsVideo] of the earlier variant never raises either, but
    its value is the fallback URL, a truthy link found in the answer of the
    search, or [null]. *)
Theorem fetchPexelsVideo_never_raises (E : env) (query : value) :
  exists url, fetchPexelsVideo E query = Ok url /\
    (url = VStr FALLBACK \/ url = VNull \/
     (truthy url = true /\
      exists r, search E [("query", query); ("per_page", VNum 1);
                          ("orientation", VStr "landscape")] = Ok r /\
                first_link r = Ok url)).
Proof.
  unfold fetchPexelsVideo.
  destruct (search E _) as [r|e] eqn:Hs; cbn [bind try_catch]; [|eauto].
  destruct (first_link r) as [link|e] eqn:Hl; cbn [bind try_catch]; [|eauto].
  exists (or_else link VNull). split; [reflexivity|].
  unfold or_else. destruct (truthy link) eqn:Ht; [|auto].
  right. right. split; [exact Ht|]. now exists r.
Qed.

(** X10.  A style that is neither a string nor an array (so [undefined], as
    when the field is missing) makes [getBg] return the fallback URL
    without regard to the search service. *)
Theorem getBg_unusable_style (E : env) (style : value) :
  match style with VStr _ | VArr _ => False | _ => True end ->
  getBg E style = Ok (VStr FALLBACK).
Proof. destruct style; intros H; try contradiction; reflexivity. Qed.

Lemma getBg_unusable_style_witness : getBg mac_env VUndefined = Ok (VStr FALLBACK).
Proof. apply (getBg_unusable_style mac_env VUndefined). exact I. Defined.

(** X11.  When the search, asked for "tech" if the style contains
    "Professional" and for "nature" otherwise, answers with a first video
    whose first file has a non-empty string link, [getBg] returns that
    link. *)
Theorem getBg_first_link (E : env) (s url : string)
    (r data video file : list (string * value)) (videos files : list value) :
  search E [("query", VStr (if includes s "Professional" then "tech" else "nature"));
            ("per_page", VNum 1)] = Ok (VObj r) ->
  lookup "data" r = Some (VObj data) ->
  lookup "videos" data = Some (VArr (VObj video :: videos)) ->
  lookup "video_files" video = Some (VArr (VObj file :: files)) ->
  lookup "link" file = Some (VStr url) ->
  url <> "" ->
  getBg E (VStr s) = Ok (VStr url).
Proof.
  intros Hs H1 H2 H3 H4 Hu. unfold getBg. cbn [call_includes bind].
  rewrite Hs. cbn [bind].
  rewrite (first_link_found r data video file videos files (VStr url) H1 H2 H3 H4).
  cbn [bind try_catch]. unfold or_else. cbn [truthy]. unfold JsString.truthy.
  destruct (String.eqb_spec url ""); [contradiction | reflexivity].
Qed.

Lemma getBg_first_link_witness :
  getBg mac_env (VStr "Professional, calm") = Ok (VStr "https://videos.example/clip.mp4").
Proof.
  eapply (getBg_first_link mac_env "Professional, calm");
    [reflexivity | reflexivity | reflexivity | reflexivity | reflexivity | discriminate].
Defined.

(** X12.  When the first video of the answer has no [video_files], taking
    its first file raises inside the [try]; both resolvers then return the
    fallback URL (the earlier one does not return [null] here). *)
Theorem resolvers_missing_video_files (E : env) (style : value)
    (r data video : list (string * value)) (videos : list value) :
  (forall params, search E params = Ok (VObj r)) ->
  lookup "data" r = Some (VObj data) ->
  lookup "videos" data = Some (VArr (VObj video :: videos)) ->
  lookup "video_files" video = None ->
  getBg E style = Ok (VStr FALLBACK) /\
  fetchPexelsVideo E style = Ok (VStr FALLBACK).
Proof.
  intros Hs H1 H2 H3.
  destruct (first_link_no_files r data video videos H1 H2 H3) as [m Hm].
  split.
  - unfold getBg. destruct (call_includes style "Professional"); cbn [bind try_catch];
      [|reflexivity].
    rewrite Hs. cbn [bind]. rewrite Hm. reflexivity.
  - unfold fetchPexelsVideo. rewrite Hs. cbn [bind]. rewrite Hm. reflexivity.
Qed.

Lemma resolvers_missing_video_files_witness :
  let E := Env "linux" "/srv/app" "job-3" 4294967296
             (fun _ => Ok (VObj [("data", VObj [("videos", VArr [VObj []])])]))
             (fun _ => Ok Media) (fun _ => Ok tt) (fun _ => Ok tt) Completed in
  getBg E (VStr "calm") = Ok (VStr FALLBACK) /\
  fetchPexelsVideo E (VStr "calm") = Ok (VStr FALLBACK).
Proof.
  cbv zeta.
  eapply resolvers_missing_video_files;
    [intros params; reflexivity | reflexivity | reflexivity | reflexivity].
Defined.

End ResolverProperties.

Section PipelineProperties.
Import JsString Js Subtitles Pipeline ScriptRoute Coverage Samples.

Ltac unfold_M :=
  cbv [mbind act lift ret read throw mtry run_engine writeFile write_silence
       generateTTS];
  cbv beta iota.

Ltac split_steps H :=
  repeat match type of H with
  | context [match ?x with Ok _ => _ | Throw _ => _ end] => destruct x eqn:?
  | context [match ?x with Completed => _ | Aborted => _ end] => destruct x eqn:?
  | context [let (_, _) := ?x in _] => destruct x eqn:?
  end; cbv beta iota in H.


(** X14.  When a stage of the [try] block of [server.js] fails, in whatever
    scope the handler stands, the files left on disk are exactly those that
    were outside the workspace: nothing the job wrote survives. *)
Theorem failed_job_leaves_no_file (outer : scope) (E : env) (r : request)
    (w w1 : world) (e : error) :
  job_body ServerJs E outer r (uuid E) (workspace E) (ensureDir (workspace E) w)
  = (Throw e, w1) ->
  let out := snd (generate_video_in outer ServerJs E r w) in
  files out = outside (workspace E) w /\
  forall f, In f (files out) -> under (workspace E) f = false.
Proof.
  intros Hb out.
  destruct (job_body_frame _ _ _ _ _ _ _ _ _ Hb) as (_ & Hf & _).
  assert (Hout : files out = outside (workspace E) w).
  { unfold out. rewrite generate_video_in_unfold, Hb.
    destruct (job_catch_disk ServerJs (workspace E) e w1) as (_ & Cf & _).
    now rewrite Cf. }
  split; [exact Hout|].
  intros f Hin. rewrite Hout in Hin. unfold outside in Hin.
  apply filter_In in Hin as [_ Hin]. now apply negb_true_iff in Hin.
Qed.

Lemma failed_job_leaves_no_file_witness :
  files (snd (generate_video_in (module_scope ServerJs ++ node_scope)%list
                ServerJs linux_env short_request busy_world))
  = outside (workspace linux_env) busy_world.
Proof.
  eapply (failed_job_leaves_no_file (module_scope ServerJs ++ node_scope)%list
            linux_env short_request busy_world).
  vm_compute. reflexivity.
Defined.

(** X15.  Whichever stage fails, and with whatever error, the client gets
    status 500 with a JSON body whose [error] field is the message of that
    error, and the message is logged. *)
Theorem failure_reports_message (outer : scope) (v : variant) (E : env) (r : request)
    (w w1 : world) (e : error) :
  headersSent (res w) = false ->
  job_body v E outer r (uuid E) (workspace E) (ensureDir (workspace E) w) = (Throw e, w1) ->
  let out := snd (generate_video_in outer v E r w) in
  res out = Response 500 (Some "application/json")
              (Some (Json [("error", VStr (message e))])) true /\
  hd_error (logged out)
  = Some ((match v with
           | ServerJs => "Video error: "
           | EarlierVariant => "Video failed: "
           end) ++ message e).
Proof.
  intros Hh Hb out.
  destruct (job_body_throw _ _ _ _ _ _ _ _ _ Hb) as [Hr _].
  unfold out. rewrite generate_video_in_unfold, Hb.
  rewrite job_catch_world by (rewrite Hr; exact Hh).
  split; reflexivity.
Qed.

Lemma failure_reports_message_witness :
  let E := Env "linux" "/srv/app" "job-4" 4294967296
             (fun _ => Ok no_footage) (fun _ => Ok Media)
             (fun _ => Throw (Failure "ffmpeg exited with code 1"))
             (fun _ => Ok tt) Completed in
  res (snd (generate_video_in styled_scope ServerJs E short_request empty_world))
  = Response 500 (Some "application/json")
      (Some (Json [("error", VStr "ffmpeg exited with code 1")])) true.
Proof.
  cbv zeta.
  refine (proj1 (failure_reports_message styled_scope ServerJs _ short_request
                   empty_world _ (Failure "ffmpeg exited with code 1") eq_refl _)).
  vm_compute. reflexivity.
Defined.



(** X17.  After a job that got through and whose response sink completed,
    no file of its workspace is left once the pending removals have run. *)
Theorem completed_job_files_removed (outer : scope) (v : variant) (E : env)
    (r : request) (w w1 : world) :
  job_body v E outer r (uuid E) (workspace E) (ensureDir (workspace E) w) = (Ok tt, w1) ->
  sink E = Completed ->
  let out := snd (generate_video_in outer v E r w) in
  forall f, In f (files (fire_timers out)) -> under (workspace E) f = false.
Proof.
  intros Hb Hs out f Hf.
  assert (Hout : out = w1).
  { unfold out. now rewrite generate_video_in_unfold, Hb. }
  destruct (job_body_done _ _ _ _ _ _ Hb) as (_ & _ & Ht). rewrite Hs in Ht.
  rewrite Hout in Hf. unfold fire_timers in Hf. cbn [files] in Hf.
  apply (fold_remove_files (workspace E) (timers w1) w1); [|exact Hf].
  rewrite Ht. now left.
Qed.

Lemma completed_job_files_removed_witness :
  Forall (fun f => under (workspace linux_env) f = false)
    (files (fire_timers
       (snd (generate_video_in styled_scope EarlierVariant linux_env short_request
               busy_world)))).
Proof.
  apply Forall_forall.
  eapply (completed_job_files_removed styled_scope EarlierVariant linux_env
            short_request busy_world);
    [vm_compute; reflexivity | reflexivity].
Defined.

(** X18.  In [server.js] a request whose duration is a whole number of
    seconds below zero (d <= -1) never gets through the [try] block, in any
    scope and whatever the services do: were every earlier stage to succeed,
    allocating the silence of d * 16000 * 2 bytes would raise. *)
Theorem negative_duration_never_succeeds (outer : scope) (E : env) (r : request)
    (job dir : string) (w : world) :
  duration_of r <= -1 ->
  exists e w1, job_body ServerJs E outer r job dir w = (Throw e, w1).
Proof.
  intros Hd.
  destruct (job_body ServerJs E outer r job dir w) as [[[]|e] w1] eqn:Hb; [|eauto].
  exfalso. revert Hb. unfold job_body. unfold_M. intros H. split_steps H.
  all: try discriminate.
  all: match goal with
       | Ha : Buffer_alloc _ _ = Ok _ |- _ =>
           unfold Buffer_alloc in Ha;
           replace (0 <=? duration_of r * 16000 * 2) with false in Ha
             by (symmetry; apply Z.leb_gt; lia);
           discriminate Ha
       end.
Qed.

Lemma negative_duration_never_succeeds_witness :
  exists e w1,
    job_body ServerJs linux_env styled_scope
      (Request (VStr "Hello") (VStr "1") VUndefined VUndefined (Some (-5)))
      "job-1" (workspace linux_env) empty_world = (Throw e, w1).
Proof.
  apply negative_duration_never_succeeds. vm_compute. discriminate.
Defined.

(** X19.  In the earlier variant on macOS a request whose voice is neither a
    string nor an array (so a missing voice) never gets through the [try]
    block: building the speech command raises. *)
Theorem mac_narration_needs_voice (outer : scope) (E : env) (r : request)
    (job dir : string) (w : world) :
  platform E = "darwin" ->
  match voice r with VStr _ | VArr _ => False | _ => True end ->
  exists e w1, job_body EarlierVariant E outer r job dir w = (Throw e, w1).
Proof.
  intros Hp Hv.
  destruct (job_body EarlierVariant E outer r job dir w) as [[[]|e] w1] eqn:Hb; [|eauto].
  exfalso. revert Hb. unfold job_body. unfold_M. intros H. split_steps H.
  all: try discriminate.
  all: match goal with
       | Ha : tts_command _ _ _ _ = Ok _ |- _ =>
           unfold tts_command in Ha; rewrite Hp in Ha;
           change ("darwin" =? "darwin")%string with true in Ha;
           destruct (voice r); try contradiction; discriminate Ha
       end.
Qed.

Lemma mac_narration_needs_voice_witness :
  exists e w1,
    job_body EarlierVariant mac_env styled_scope
      (Request (VStr "Hello") (VStr "1") VUndefined VUndefined (Some 5))
      "job-2" (workspace mac_env) empty_world = (Throw e, w1).
Proof.
  apply mac_narration_needs_voice; [reflexivity | exact I].
Defined.

End PipelineProperties.

Section ScriptRouteProperties.
Import JsString Js Subtitles Pipeline ScriptRoute Coverage Samples.



(** X21.  A completion without any choice is answered with status 500: the
    first choice is [undefined] and reading its message raises a type
    error, which the handler catches. *)
Theorem generate_script_no_choice (v : variant) (complete : chat_request -> result value)
    (r : script_request) (w : world) (c : list (string * value)) :
  complete (chat_request_of v r) = Ok (VObj c) ->
  lookup "choices" c = Some (VArr []) ->
  res (snd (generate_script v complete r w))
  = Response 500 (Some "application/json")
      (Some (Json [("error",
                    VStr "Cannot read properties of undefined (reading 'message')")]))
      true.
Proof.
  intros Hc Hl. rewrite generate_script_unfold, Hc. cbn [bind].
  unfold completion_text. cbn [get bind]. rewrite Hl. reflexivity.
Qed.

Lemma generate_script_no_choice_witness :
  res (snd (generate_script ServerJs (fun _ => Ok (VObj [("choices", VArr [])]))
              some_script_request empty_world))
  = Response 500 (Some "application/json")
      (Some (Json [("error",
                    VStr "Cannot read properties of undefined (reading 'message')")]))
      true.
Proof.
  eapply generate_script_no_choice; reflexivity.
Defined.

(** X22.  A completion whose text is only white space is answered as a
    success, with an empty script and an empty subtitle text. *)
Theorem generate_script_blank_completion (v : variant)
    (complete : chat_request -> result value) (r : script_request) (w : world)
    (c choice msg : list (string * value)) (choices : list value) (content : string) :
  complete (chat_request_of v r) = Ok (VObj c) ->
  lookup "choices" c = Some (VArr (VObj choice :: choices)) ->
  lookup "message" choice = Some (VObj msg) ->
  lookup "content" msg = Some (VStr content) ->
  all_space content = true ->
  res (snd (generate_script v complete r w))
  = Response (status (res w)) (Some "application/json")
      (Some (Json [("script", VStr ""); ("srt", VStr "")])) true.
Proof.
  intros Hc H1 H2 H3 Hs. rewrite generate_script_unfold, Hc. cbn [bind].
  rewrite (completion_text_content c choice msg choices content H1 H2 H3).
  rewrite trim_all_space by exact Hs. reflexivity.
Qed.

Lemma generate_script_blank_completion_witness :
  res (snd (generate_script EarlierVariant
              (fun _ => Ok (completion (VStr ("  " ++ nl ++ " "))))
              some_script_request empty_world))
  = Response 200 (Some "application/json")
      (Some (Json [("script", VStr ""); ("srt", VStr "")])) true.
Proof.
  eapply (generate_script_blank_completion EarlierVariant _ some_script_request
            empty_world); reflexivity.
Defined.

(** X23.  The two routes in sequence: whenever the script route succeeds,
    sending its script and subtitle text on to the video route, as both
    server files stand, is answered with status 500 and the message
    [style is not defined], whatever the services do. *)
Theorem script_then_video_fails (v : variant) (complete : chat_request -> result value)
    (sr : script_request) (E : env) (voice : value) (d : option Z) (w : world)
    (script : string) :
  headersSent (res w) = false ->
  bind (complete (chat_request_of v sr)) completion_text = Ok script ->
  let answer := script_body script (s_duration_of sr) in
  sent (res (snd (generate_script v complete sr w))) = Some answer /\
  res (snd (generate_video v E (follow_up answer voice d) w))
  = Response 500 (Some "application/json")
      (Some (Json [("error", VStr "style is not defined")])) true.
Proof.
  intros Hh Hs answer. split.
  - rewrite generate_script_unfold, Hs. reflexivity.
  - set (r := follow_up answer voice d).
    destruct (job_body_raises v E r (ensureDir (workspace E) w))
      as (w1 & Hb & _ & _ & _ & Hh1).
    change (is_string (srt r)) with true in Hb. cbv iota in Hb.
    unfold generate_video. rewrite generate_video_in_unfold, Hb.
    rewrite job_catch_world by (rewrite Hh1; exact Hh). reflexivity.
Qed.

Lemma script_then_video_fails_witness :
  res (snd (generate_video ServerJs linux_env
              (follow_up (script_body "High tide." 10) (VStr "Female") (Some 10))
              empty_world))
  = Response 500 (Some "application/json")
      (Some (Json [("error", VStr "style is not defined")])) true.
Proof.
  refine (proj2 (script_then_video_fails ServerJs
                   (fun _ => Ok (completion (VStr " High tide. ")))
                   some_script_request linux_env (VStr "Female") (Some 10)
                   empty_world "High tide." eq_refl _)).
  reflexivity.
Defined.

End ScriptRouteProperties.

Section NarrationProperties.
Import JsString Js Subtitles Pipeline ScriptRoute Coverage Samples.

(** X24.  On macOS the speech command of the earlier variant names the
    voice Samantha when the voice hint contains "Female" and Alex otherwise,
    and quotes the script by putting one backslash before each double
    quote: the double quotes are kept, one character is added for each, and
    a script without a double quote is passed as it is, its backslashes and
    other shell characters included. *)
Theorem speech_command_quoting (E : env) (text voice path : string) :
  platform E = "darwin" ->
  let quoted := replace_all "034" ("\" ++ dq) text in
  tts_command E (VStr text) (VStr voice) path
  = Ok ("say -v " ++ (if includes voice "Female" then "Samantha" else "Alex") ++ " "
          ++ dq ++ quoted ++ dq ++ " -o " ++ dq ++ path ++ dq) /\
  occurrences "034" quoted = occurrences "034" text /\
  occurrences "\" quoted = (occurrences "\" text + occurrences "034" text)%nat /\
  String.length quoted = (String.length text + occurrences "034" text)%nat /\
  (mem "034" text = false -> quoted = text).
Proof.
  intros Hp quoted. split.
  - unfold tts_command. rewrite Hp. reflexivity.
  - destruct (replace_all_escape "034" text ltac:(discriminate)) as (H1 & H2 & H3).
    repeat split; try assumption.
    intros Hm. now apply replace_all_absent.
Qed.

Lemma speech_command_quoting_witness :
  tts_command mac_env (VStr "Say `hi` \ $HOME") (VStr "Female, warm") "/tmp/v.aiff"
  = Ok ("say -v Samantha " ++ dq ++ "Say `hi` \ $HOME" ++ dq ++ " -o " ++ dq
          ++ "/tmp/v.aiff" ++ dq).
Proof.
  destruct (speech_command_quoting mac_env "Say `hi` \ $HOME" "Female, warm"
              "/tmp/v.aiff") as (H & _); [reflexivity | exact H].
Defined.

(** X25.  Off macOS the narration of the earlier variant reads neither the
    script nor the voice hint: the command is a fixed [echo], and when it
    succeeds the narration file holds the placeholder line, when it fails
    the step raises that error and writes nothing. *)
Theorem placeholder_narration (E : env) (text voice : value) (path : string) (w : world) :
  platform E <> "darwin" ->
  let cmd := "echo " ++ dq ++ "TTS not supported on this OS" ++ dq ++ " > " ++ dq
               ++ path ++ dq in
  generateTTS E text voice path w
  = match exec E cmd with
    | Ok _ => (Ok tt, put_file path (Text ("TTS not supported on this OS" ++ nl)) w)
    | Throw e => (Throw e, w)
    end.
Proof.
  intros Hp cmd. unfold generateTTS, tts_command, tts_output.
  destruct (String.eqb_spec (platform E) "darwin") as [Heq|_]; [contradiction|].
  unfold mbind, lift, act.
  change ("echo " ++ dq ++ placeholder_text ++ dq ++ " > " ++ dq ++ path ++ dq) with cmd.
  destruct (exec E cmd) as [[]|e]; reflexivity.
Qed.

Lemma placeholder_narration_witness :
  generateTTS linux_env VUndefined VUndefined "/srv/app/temp/job-1/voice.aiff" empty_world
  = (Ok tt, put_file "/srv/app/temp/job-1/voice.aiff"
              (Text ("TTS not supported on this OS" ++ nl)) empty_world).
Proof.
  apply (placeholder_narration linux_env VUndefined VUndefined
           "/srv/app/temp/job-1/voice.aiff" empty_world).
  vm_compute. discriminate.
Defined.

(** X26.  In [server.js], for a duration of a whole number d >= 0 of
    seconds whose buffer the platform can allocate, the narration step
    writes exactly d * 16000 * 2 bytes, all of them zero, with no header
    before them, and does not raise. *)
Theorem write_silence_zero_filled (E : env) (d : Z) (path : string) (w : world) :
  0 <= d -> d * 16000 * 2 <= buffer_max E ->
  exists silence,
    write_silence E d path w = (Ok tt, put_file path (Bytes silence) w) /\
    Z.of_nat (List.length silence) = d * 16000 * 2 /\
    Forall (fun b => b = Byte.x00) silence.
Proof.
  intros H0 Hmax. exists (repeat Byte.x00 (Z.to_nat (d * 16000 * 2))).
  split; [|split].
  - unfold write_silence, Buffer_alloc, mbind, lift, act.
    replace (0 <=? d * 16000 * 2) with true by (symmetry; apply Z.leb_le; lia).
    replace (d * 16000 * 2 <=? buffer_max E) with true
      by (symmetry; apply Z.leb_le; lia).
    reflexivity.
  - rewrite repeat_length. lia.
  - apply Forall_forall. intros b Hb. now apply repeat_spec in Hb.
Qed.

Lemma write_silence_zero_filled_witness :
  exists silence,
    write_silence linux_env 1 "/srv/app/temp/job-1/tts.wav" empty_world
    = (Ok tt, put_file "/srv/app/temp/job-1/tts.wav" (Bytes silence) empty_world) /\
    Z.of_nat (List.length silence) = 1 * 16000 * 2 /\
    Forall (fun b => b = Byte.x00) silence.
Proof.
  apply (write_silence_zero_filled linux_env 1); [lia | vm_compute; discriminate].
Defined.

End NarrationProperties.
